(** * Agentic sentiment analyzer: the hierarchical task router and its session store

    A shallow embedding of the backend of the YouTube sentiment chatbot:

    - [app/core/session_manager.py]: the TTL-bounded session store;
    - [app/core/state.py]: the dictionary-shaped graph states;
    - [app/agents/agent_factory.py], [app/agents/supervisor.py]: the node
      wrappers around the external agents and routers;
    - [app/graphs/research_graph.py], [app/graphs/analysis_graph.py],
      [app/graphs/main_graph.py]: the two team graphs and the outer graph;
    - [app/api/routes.py]: the part of [analyze_video_stream] that drives the
      outer graph for one turn.

    External collaborators (the language models, the agent executors, the
    clock, the uuid generator) are arguments of the definitions.  The graph
    engine the code is written against (langgraph's [StateGraph]) is a
    dependency of the repository, not part of it; it is embedded as a small
    interpreter ([Pregel]) that follows the calls the source makes:
    [add_node], [add_edge], [add_conditional_edges], [set_entry_point],
    [compile], [invoke], [astream]. *)

From Stdlib Require Import Ascii.
From stdpp Require Import gmap strings list pretty.

#[local] Set Warnings "-clear-no-such-hyp".

Local Open Scope string_scope.
Local Open Scope list_scope.

(** ** Python values shared by every module *)

(** [langchain_core.documents.Document]. *)
Record Document := mkDocument {
  page_content : string;
  metadata : list (string * string)
}.

(** [HumanMessage(content=..., name=...)]; every message the graphs create is
    of this class, [name] is [None] unless the creator passes one. *)
Record Message := HumanMessage {
  content : string;
  name : option string
}.

(** Exceptions that can cross the code under study.  [TypeError] is what
    the interpreter raises on an operation a value does not support;
    [CapabilityError] stands for whatever a model, a tool or an executor
    raises. *)
Inductive exn :=
| KeyError (key : string)
| IndexError
| InvalidUpdateError
| GraphRecursionError (text : string)
| TypeError (text : string)
| CapabilityError (text : string).

(** Python's [str(e)].  The text of a [KeyError] is the [repr] of its key,
    written here as it reads for a key without quotes or escapes; of the
    engine's [InvalidUpdateError] only the start of the text is kept. *)
Definition str_exn (e : exn) : string :=
  match e with
  | KeyError key => "'" +:+ key +:+ "'"
  | IndexError => "list index out of range"
  | InvalidUpdateError => "Expected dict"
  | GraphRecursionError text => text
  | TypeError text => text
  | CapabilityError text => text
  end.

Inductive result (A : Type) :=
| Ok (a : A)
| Raise (e : exn).
Arguments Ok {A} a.
Arguments Raise {A} e.

#[global] Instance result_ret : MRet result := λ A a, Ok a.
#[global] Instance result_bind : MBind result := λ A B k r,
  match r with
  | Ok a => k a
  | Raise e => Raise e
  end.

(** [xs[-1]]: the last element, [IndexError] on the empty list. *)
Definition last_item {A} (xs : list A) : result A :=
  match last xs with
  | Some x => Ok x
  | None => Raise IndexError
  end.

(** Python truthiness of a list. *)
Definition truthy {A} (xs : list A) : bool :=
  match xs with
  | [] => false
  | _ :: _ => true
  end.

(** ** [app/core/session_manager.py] *)

Module SessionManager.
Section Store.

(** The compiled graph, the retriever and the raw blobs are opaque to the
    store. *)
Context {Graph Retriever Blob : Type}.

(** Timestamps and durations are counted in microseconds, the resolution
    of [datetime] and [timedelta]. *)
Record VideoSession := mkVideoSession {
  session_id : string;
  video_id : string;
  video_title : string;
  channel_name : string;
  created_at : Z;
  last_accessed : Z;
  main_graph : option Graph;
  documents : list Document;
  bm25_retriever : option Retriever;
  raw_blobs : gmap string Blob
}.

Record SessionManager := mkSessionManager {
  _sessions : gmap string VideoSession;
  _session_ttl : Z
}.

Definition microseconds_per_hour : Z := 3600000000.

(** [__init__(session_ttl_hours=24)]. *)
Definition init (session_ttl_hours : Z) : SessionManager :=
  {| _sessions := ∅;
     _session_ttl := session_ttl_hours * microseconds_per_hour |}.

Definition set_sessions (self : SessionManager)
    (m : gmap string VideoSession) : SessionManager :=
  {| _sessions := m; _session_ttl := _session_ttl self |}.

(** [session.last_accessed = t]. *)
Definition touch (t : Z) (s : VideoSession) : VideoSession :=
  {| session_id := session_id s; video_id := video_id s;
     video_title := video_title s; channel_name := channel_name s;
     created_at := created_at s; last_accessed := t;
     main_graph := main_graph s; documents := documents s;
     bm25_retriever := bm25_retriever s; raw_blobs := raw_blobs s |}.

(** [create_session]: [fresh_id] is [str(uuid.uuid4())]; the two default
    factories of the dataclass read the clock once each. *)
Definition create_session (fresh_id : string) (now_created now_accessed : Z)
    (vid title channel : string) (self : SessionManager)
  : string * SessionManager :=
  let session :=
    {| session_id := fresh_id; video_id := vid; video_title := title;
       channel_name := channel; created_at := now_created;
       last_accessed := now_accessed; main_graph := None; documents := [];
       bm25_retriever := None; raw_blobs := ∅ |} in
  (fresh_id, set_sessions self (<[fresh_id := session]> (_sessions self))).

(** [delete_session]. *)
Definition delete_session (sid : string) (self : SessionManager)
  : SessionManager :=
  match _sessions self !! sid with
  | Some _ => set_sessions self (delete sid (_sessions self))
  | None => self
  end.

(** [get_session].  The clock is read twice: [now_check] is the reading of
    the expiry test, [now_touch] the one stored in [last_accessed].  The
    session object returned is the one held by the store, so the bump is
    visible through both. *)
Definition get_session (now_check now_touch : Z) (sid : string)
    (self : SessionManager) : option VideoSession * SessionManager :=
  match _sessions self !! sid with
  | None => (None, self)
  | Some session =>
      if bool_decide (now_check - last_accessed session > _session_ttl self)%Z
      then (None, delete_session sid self)
      else
        let session' := touch now_touch session in
        (Some session',
         set_sessions self (<[sid := session']> (_sessions self)))
  end.

(** [update_session]: a keyword left at [None] keeps the old field. *)
Definition update_session (now : Z) (sid : string)
    (new_graph : option Graph) (new_documents : option (list Document))
    (new_retriever : option Retriever)
    (new_blobs : option (gmap string Blob))
    (self : SessionManager) : SessionManager :=
  match _sessions self !! sid with
  | None => self
  | Some session =>
      let session' :=
        {| session_id := session_id session;
           video_id := video_id session;
           video_title := video_title session;
           channel_name := channel_name session;
           created_at := created_at session;
           last_accessed := now;
           main_graph :=
             match new_graph with
             | Some g => Some g
             | None => main_graph session
             end;
           documents := default (documents session) new_documents;
           bm25_retriever :=
             match new_retriever with
             | Some r => Some r
             | None => bm25_retriever session
             end;
           raw_blobs := default (raw_blobs session) new_blobs |} in
      set_sessions self (<[sid := session']> (_sessions self))
  end.

(** [cleanup_expired_sessions]: one clock reading for the whole sweep. *)
Definition cleanup_expired_sessions (now : Z) (self : SessionManager)
  : SessionManager :=
  set_sessions self
    (filter (λ kv, ¬ (now - last_accessed kv.2 > _session_ttl self)%Z)
            (_sessions self)).

(** A session has lapsed at time [t]. *)
Definition lapsed (self : SessionManager) (t : Z) (s : VideoSession) : Prop :=
  (t - last_accessed s > _session_ttl self)%Z.

(** One entry of [list_active_sessions]; the two timestamps are rendered
    by [datetime.isoformat]. *)
Record SessionInfo := mkSessionInfo {
  info_session_id : string;
  info_video_id : string;
  info_video_title : string;
  info_channel_name : string;
  info_created_at : string;
  info_last_accessed : string
}.

(** [list_active_sessions].  The entries come in the order of the store's
    map, which is not the insertion order of the Python dict; only what
    does not depend on the order is stated about the result. *)
Definition list_active_sessions (isoformat : Z → string)
    (self : SessionManager) : list SessionInfo :=
  map (λ kv : string * VideoSession,
         let session := kv.2 in
         {| info_session_id := session_id session;
            info_video_id := video_id session;
            info_video_title := video_title session;
            info_channel_name := channel_name session;
            info_created_at := isoformat (created_at session);
            info_last_accessed := isoformat (last_accessed session) |})
      (map_to_list (_sessions self)).

(** Every key of the store is the identifier of the session it maps to. *)
Definition well_keyed (self : SessionManager) : Prop :=
  ∀ sid s, _sessions self !! sid = Some s → session_id s = sid.

End Store.
Arguments VideoSession : clear implicits.
Arguments SessionManager : clear implicits.
End SessionManager.

(** ** The graph engine

    The part of the [StateGraph] interface the source uses.  A graph is a
    table of nodes, of unconditional edges and of conditional edges; running
    it executes one node per step, applies the node's update to the state
    through the channels' reducers, and follows the edge that leaves the
    node.  The step budget [recursion_limit] and the text of the error raised
    when it is exhausted belong to the engine.  The engine tests the budget
    before it looks for the next node to run, and the step that starts a
    run counts: under a budget of [n] at most [n] nodes run, and a run
    ends without an exception only when fewer than [n] nodes ran. *)

Definition END : string := "__end__".

Module Pregel.
Section Engine.

Context {St Upd : Type}.

(** A conditional edge: the [path] callable and the dict that maps its
    value to the destination. *)
Record Branch := mkBranch {
  path : St → result string;
  path_map : gmap string string
}.

Record StateGraph := mkStateGraph {
  nodes : gmap string (St → result Upd);
  edges : gmap string string;
  branches : gmap string Branch;
  entry_point : string
}.

Definition new_graph : StateGraph :=
  {| nodes := ∅; edges := ∅; branches := ∅; entry_point := END |}.

Definition add_node (key : string) (action : St → result Upd)
    (g : StateGraph) : StateGraph :=
  {| nodes := <[key := action]> (nodes g); edges := edges g;
     branches := branches g; entry_point := entry_point g |}.

Definition add_edge (start_key end_key : string) (g : StateGraph)
  : StateGraph :=
  {| nodes := nodes g; edges := <[start_key := end_key]> (edges g);
     branches := branches g; entry_point := entry_point g |}.

Definition add_conditional_edges (source : string)
    (p : St → result string) (pm : gmap string string) (g : StateGraph)
  : StateGraph :=
  {| nodes := nodes g; edges := edges g;
     branches := <[source := mkBranch p pm]> (branches g);
     entry_point := entry_point g |}.

Definition set_entry_point (key : string) (g : StateGraph) : StateGraph :=
  {| nodes := nodes g; edges := edges g; branches := branches g;
     entry_point := key |}.

(** The node that runs after [cur], read on the state that already holds
    the update of [cur].  The value of a conditional edge's callable is
    looked up in its dict: [ends[r]], a [KeyError] when [r] is no key. *)
Definition next_node (g : StateGraph) (cur : string) (s : St)
  : result string :=
  match branches g !! cur with
  | Some b =>
      r ← path b s;
      match path_map b !! r with
      | Some dest => Ok dest
      | None => Raise (KeyError r)
      end
  | None =>
      match edges g !! cur with
      | Some dest => Ok dest
      | None => Ok END
      end
  end.

(** One run: the updates streamed so far, the last state committed, and
    the exception that ended the run, if any. *)
Record Run := mkRun {
  events : list (string * Upd);
  final : St;
  outcome : option exn
}.

Definition emit (ev : string * Upd) (r : Run) : Run :=
  {| events := ev :: events r; final := final r; outcome := outcome r |}.

Variable apply_update : St → Upd → St.
Variable recursion_limit : nat.
Variable recursion_text : string.

(** [fuel] is what is left of the step budget.  The budget is tested
    first, also when the node to run next is the terminal one: a run whose
    last node used the last unit ends with [GraphRecursionError].  A step
    whose node or whose routing raises commits nothing. *)
Fixpoint pregel_loop (g : StateGraph) (fuel : nat) (cur : string) (s : St)
  : Run :=
  match fuel with
  | O => mkRun [] s (Some (GraphRecursionError recursion_text))
  | S fuel' =>
      if decide (cur = END) then mkRun [] s None
      else
        match nodes g !! cur with
        | None => mkRun [] s (Some (KeyError cur))
        | Some action =>
            match action s with
            | Raise e => mkRun [] s (Some e)
            | Ok u =>
                let s' := apply_update s u in
                match next_node g cur s' with
                | Raise e => mkRun [] s (Some e)
                | Ok dest => emit (cur, u) (pregel_loop g fuel' dest s')
                end
            end
        end
  end.

(** [astream(input, config)] on the state [s0] the thread holds: the input
    is written through the reducers, then the graph runs from its entry
    point. *)
Definition astream (g : StateGraph) (s0 : St) (input : Upd) : Run :=
  pregel_loop g recursion_limit (entry_point g) (apply_update s0 input).

Definition to_result (r : Run) : result St :=
  match outcome r with
  | None => Ok (final r)
  | Some e => Raise e
  end.

(** [invoke(input)] of a graph compiled without a checkpointer. *)
Definition invoke (g : StateGraph) (empty : St) (input : Upd) : result St :=
  to_result (astream g empty input).

(** A graph compiled with [MemorySaver()]: the saver maps a thread id to
    the state committed last on that thread. *)
Definition astream_thread (g : StateGraph) (empty : St)
    (saver : gmap string St) (thread_id : string) (input : Upd)
  : Run * gmap string St :=
  let r := astream g (default empty (saver !! thread_id)) input in
  (r, <[thread_id := final r]> saver).

(** The nodes a run visits: each is reached from the one before it along
    an edge of the graph. *)
Inductive walk (g : StateGraph) : string → list string → Prop :=
| walk_stop cur : walk g cur []
| walk_step cur s dest rest :
    next_node g cur s = Ok dest →
    walk g dest rest →
    walk g cur (cur :: rest).

(** Two members next to each other in a trace. *)
Definition direct_hop (members trace : list string) : Prop :=
  ∃ i a b, trace !! i = Some a ∧ trace !! S i = Some b
           ∧ a ∈ members ∧ b ∈ members.

End Engine.
Arguments Branch : clear implicits.
Arguments StateGraph : clear implicits.
Arguments Run : clear implicits.
End Pregel.

(** ** [app/core/state.py] *)

(** The three [TypedDict] states have the same keys; they differ in the type
    [M] of [team_members] ([List[str]] for [ResearchTeamState], [str] for
    [SentimentState]), a key [SuperState] does not have.  A key other than
    [messages] is absent until a node writes it. *)
Record GraphState (M : Type) := mkGraphState {
  messages : list Message;
  documents : option (list Document);
  team_members : option M;
  next : option string
}.
Arguments mkGraphState {M}.
Arguments messages {M}.
Arguments documents {M}.
Arguments team_members {M}.
Arguments next {M}.

(** A dict returned by a node or handed to [invoke]: any subset of the
    keys. *)
Record Update (M : Type) := mkUpdate {
  u_messages : option (list Message);
  u_documents : option (list Document);
  u_team_members : option M;
  u_next : option string
}.
Arguments mkUpdate {M}.
Arguments u_messages {M}.
Arguments u_documents {M}.
Arguments u_team_members {M}.
Arguments u_next {M}.

(** A dict that holds none of the keys: the node wrote to no channel, and
    [astream] yields [None] in the place of its update. *)
Definition writes_nothing {M} (u : Update M) : bool :=
  match u_messages u, u_documents u, u_team_members u, u_next u with
  | None, None, None, None => true
  | _, _, _, _ => false
  end.

Abbreviation ResearchTeamState := (GraphState (list string)).
Abbreviation SentimentState := (GraphState string).
Abbreviation SuperState := (GraphState Empty_set).

(** The state of a thread nothing was written to. *)
Definition empty_state {M} : GraphState M :=
  {| messages := []; documents := None; team_members := None; next := None |}.

Definition overwrite {A} (old new : option A) : option A :=
  match new with
  | Some v => Some v
  | None => old
  end.

(** The channels: [messages] is [Annotated[..., operator.add]], the other
    keys keep the value written last. *)
Definition apply_update {M} (s : GraphState M) (u : Update M) : GraphState M :=
  {| messages := messages s ++ default [] (u_messages u);
     documents := overwrite (documents s) (u_documents u);
     team_members := overwrite (team_members s) (u_team_members u);
     next := overwrite (next s) (u_next u) |}.

(** ** [app/agents/agent_factory.py] *)

(** What a tool handed back to the executor: a string, or a dict that may
    hold a [documents] key. *)
Inductive Observation :=
| ObsStr (text : string)
| ObsDict (response : option string) (obs_documents : option (list Document)).

(** The dict [agent.invoke(state)] returns, as far as the wrappers read
    it: the keys [output], [documents] and [intermediate_steps], each
    present or not. *)
Record AgentResult := mkAgentResult {
  output : string;
  result_documents : option (list Document);
  intermediate_steps : option (list (string * Observation))
}.

(** What the agent inside an executor ends with: its answer and the
    (action, observation) pairs of the tools it called. *)
Record AgentFinish := mkAgentFinish {
  return_output : string;
  return_steps : list (string * Observation)
}.

(** [create_agent]: the [AgentExecutor] built on the agent [run].  An
    executor is a chain, and a chain's [invoke] returns its inputs merged
    with its outputs: the keys of the state come back as they went in,
    beside [output] and, since [return_intermediate_steps=True], the
    steps. *)
Definition create_agent {M} (run : GraphState M → result AgentFinish)
  : GraphState M → result AgentResult :=
  λ state,
    finish ← run state;
    Ok {| output := return_output finish;
          result_documents := documents state;
          intermediate_steps := Some (return_steps finish) |}.

(** [agent_node]. *)
Definition agent_node {M} (state : GraphState M)
    (agent : GraphState M → result AgentResult) (name : string)
  : result (Update M) :=
  result ← agent state;
  Ok {| u_messages := Some [HumanMessage (output result) (Some name)];
        u_documents := Some (default [] (result_documents result));
        u_team_members := None;
        u_next := None |}.

(** The loop over [result["intermediate_steps"]]: the last dict observation
    that has a [documents] key wins. *)
Definition documents_of_steps (steps : list (string * Observation))
  : list Document :=
  foldl (λ docs step,
           match step.2 with
           | ObsDict _ (Some d) => d
           | _ => docs
           end) [] steps.

(** [agent_node_with_docs]. *)
Definition agent_node_with_docs {M} (state : GraphState M)
    (agent : GraphState M → result AgentResult) (name : string)
  : result (Update M) :=
  result ← agent state;
  let docs :=
    if decide (name = "CommentFinder")
    then match intermediate_steps result with
         | Some steps => documents_of_steps steps
         | None => []
         end
    else [] in
  Ok {| u_messages := Some [HumanMessage (output result) (Some name)];
        u_documents :=
          Some (if truthy docs then docs
                else default [] (documents state));
        u_team_members := None;
        u_next := None |}.

(** ** [app/agents/supervisor.py] *)

(** One entry of what [JsonOutputToolsParser] returns. *)
Record ToolCall := mkToolCall {
  call_type : string;
  call_args : option (gmap string string)
}.

(** What [extract_next] returns: the [args] dict of the first call, or the
    parser output itself when it is empty. *)
Inductive RouterOutput :=
| ArgsDict (args : gmap string string)
| RawOutput (calls : list ToolCall).

Definition extract_next (out : list ToolCall) : RouterOutput :=
  match out with
  | call :: _ => ArgsDict (default ∅ (call_args call))
  | [] => RawOutput out
  end.

(** The value a router node returns becomes a state update: the engine
    accepts a dict and writes the keys that are channels. *)
Definition router_update {M} (o : RouterOutput) : result (Update M) :=
  match o with
  | ArgsDict args =>
      Ok {| u_messages := None; u_documents := None; u_team_members := None;
            u_next := args !! "next" |}
  | RawOutput _ => Raise InvalidUpdateError
  end.

(** [create_team_supervisor].  [llm prompt options log] stands for the chain
    [prompt | llm.bind_tools(...) | JsonOutputToolsParser()] on the message
    log of the state. *)
Definition create_team_supervisor {M}
    (llm : string → list string → list Message → result (list ToolCall))
    (system_prompt : string) (members : list string)
  : GraphState M → result (Update M) :=
  let options := "FINISH" :: members in
  λ state,
    out ← llm system_prompt options (messages state);
    router_update (extract_next out).

(** [lambda x: x["next"]]. *)
Definition read_next {M} (x : GraphState M) : result string :=
  match next x with
  | Some r => Ok r
  | None => Raise (KeyError "next")
  end.

(** [", ".join(members)]. *)
Fixpoint join_names (members : list string) : string :=
  match members with
  | [] => ""
  | [m] => m
  | m :: rest => m +:+ ", " +:+ join_names rest
  end.

(** ** The graphs and the driver *)

(** The events [analyze_video_stream] yields while driving the graph. *)
Inductive Event :=
| agent_message (agent : option string) (text : string)
    (session : string) (langgraph_node : string)
| final_response (text : string)
    (docs : option (list (string * list (string * string))))
    (session : string)
| error_message (text : string).

(** [format_final_response], with the [session_id] added by the caller. *)
Definition format_final_response (text : string) (docs : list Document)
    (session : string) : Event :=
  final_response text
    (if truthy docs
     then Some (map (λ d, (page_content d, metadata d)) docs)
     else None)
    session.

(** [format_error_message]. *)
Definition format_error_message (text : string) : Event :=
  error_message text.

(** The dict [get_messages_and_documents] hands to the analysis chain. *)
Record AnalysisInput := mkAnalysisInput {
  message : string;
  input_documents : option (list Document)
}.

Section System.

(** The engine's step budget and the text of its error. *)
Variable recursion_limit : nat.
Variable recursion_text : string.

(** The three chat models, each seen through the routing chain built on
    it, and the four agents of the teams.  The builders are stated for any
    callable in the place of an agent; the executors of the source are the
    callables [create_agent] returns. *)
Variable research_llm analysis_llm super_llm
  : string → list string → list Message → result (list ToolCall).
Variable search_agent research_agent
  : ResearchTeamState → result AgentResult.
Variable topic_agent sentiment_agent
  : SentimentState → result AgentResult.

(** The prompts of [app/core/prompts.py]. *)
Variable RESEARCH_SUPERVISOR_PROMPT ANALYSIS_SUPERVISOR_PROMPT
  SUPER_SUPERVISOR_PROMPT : string.

Definition run_graph {M} (g : Pregel.StateGraph (GraphState M) (Update M))
    (input : Update M) : result (GraphState M) :=
  Pregel.invoke apply_update recursion_limit recursion_text g
    empty_state input.

(** *** [app/graphs/research_graph.py] *)

Definition build_research_graph
  : Pregel.StateGraph ResearchTeamState (Update (list string)) :=
  let search_node := λ state, agent_node state search_agent "VideoSearch" in
  let research_node :=
    λ state, agent_node_with_docs state research_agent "CommentFinder" in
  let research_supervisor_agent :=
    create_team_supervisor research_llm RESEARCH_SUPERVISOR_PROMPT
      ["VideoSearch"; "CommentFinder"] in
  let g := Pregel.new_graph in
  let g := Pregel.add_node "VideoSearch" search_node g in
  let g := Pregel.add_node "CommentFinder" research_node g in
  let g := Pregel.add_node "ResearchSupervisor" research_supervisor_agent g in
  let g := Pregel.add_edge "VideoSearch" "ResearchSupervisor" g in
  let g := Pregel.add_edge "CommentFinder" "ResearchSupervisor" g in
  let g := Pregel.add_conditional_edges "ResearchSupervisor" read_next
             (<["VideoSearch" := "VideoSearch"]>
              (<["CommentFinder" := "CommentFinder"]>
               (<["FINISH" := END]> ∅))) g in
  Pregel.set_entry_point "ResearchSupervisor" g.

Definition enter_research_chain (msg : string) : Update (list string) :=
  {| u_messages := Some [HumanMessage msg None]; u_documents := None;
     u_team_members := None; u_next := None |}.

(** [research_chain_with_docs]: the dict it returns has the keys
    [messages] and [documents] only. *)
Definition research_chain_with_docs (state : Update (list string))
  : result ResearchTeamState :=
  result ← run_graph build_research_graph state;
  Ok {| messages := messages result;
        documents :=
          Some (match documents result with
                | Some d => d
                | None => default [] (u_documents state)
                end);
        team_members := None;
        next := None |}.

(** [create_research_chain]. *)
Definition research_chain (msg : string) : result ResearchTeamState :=
  research_chain_with_docs (enter_research_chain msg).

(** *** [app/graphs/analysis_graph.py] *)

Definition build_analysis_graph
  : Pregel.StateGraph SentimentState (Update string) :=
  let topic_node := λ state, agent_node state topic_agent "Topic" in
  let sentiment_node :=
    λ state, agent_node state sentiment_agent "Sentiment" in
  let analysis_supervisor_agent :=
    create_team_supervisor analysis_llm ANALYSIS_SUPERVISOR_PROMPT
      ["Topic"; "Sentiment"] in
  let g := Pregel.new_graph in
  let g := Pregel.add_node "Topic" topic_node g in
  let g := Pregel.add_node "Sentiment" sentiment_node g in
  let g := Pregel.add_node "AnalysisSupervisor" analysis_supervisor_agent g in
  let g := Pregel.add_edge "Topic" "AnalysisSupervisor" g in
  let g := Pregel.add_edge "Sentiment" "AnalysisSupervisor" g in
  let g := Pregel.add_conditional_edges "AnalysisSupervisor" read_next
             (<["Topic" := "Topic"]>
              (<["Sentiment" := "Sentiment"]>
               (<["FINISH" := END]> ∅))) g in
  Pregel.set_entry_point "AnalysisSupervisor" g.

Definition enter_sentiment_chain (state : AnalysisInput) : Update string :=
  let members := ["Topic"; "Sentiment"] in
  {| u_messages := Some [HumanMessage (message state) None];
     u_documents := Some (default [] (input_documents state));
     u_team_members := Some (join_names members);
     u_next := None |}.

(** [create_analysis_chain]. *)
Definition analysis_chain (state : AnalysisInput) : result SentimentState :=
  run_graph build_analysis_graph (enter_sentiment_chain state).

(** *** [app/graphs/main_graph.py] *)

Definition get_last_message (state : SuperState) : result string :=
  m ← last_item (messages state);
  Ok (content m).

Definition join_graph {M} (response : GraphState M)
  : result (Update Empty_set) :=
  m ← last_item (messages response);
  Ok {| u_messages := Some [m];
        u_documents :=
          match documents response with
          | Some d => if truthy d then Some d else None
          | None => None
          end;
        u_team_members := None;
        u_next := None |}.

Definition get_messages_and_documents (state : SuperState)
  : result (Update Empty_set) :=
  m ← last_item (messages state);
  let docs := default [] (documents state) in
  result ← analysis_chain
    {| message := content m; input_documents := Some docs |};
  join_graph result.

(** The node [get_last_message | research_chain | join_graph]. *)
Definition research_team_node (state : SuperState)
  : result (Update Empty_set) :=
  msg ← get_last_message state;
  response ← research_chain msg;
  join_graph response.

Definition build_main_graph
  : Pregel.StateGraph SuperState (Update Empty_set) :=
  let super_supervisor_agent :=
    create_team_supervisor super_llm SUPER_SUPERVISOR_PROMPT
      ["Research team"; "Analysis team"] in
  let g := Pregel.new_graph in
  let g := Pregel.add_node "Research team" research_team_node g in
  let g := Pregel.add_node "Analysis team" get_messages_and_documents g in
  let g := Pregel.add_node "SuperSupervisor" super_supervisor_agent g in
  let g := Pregel.add_edge "Research team" "SuperSupervisor" g in
  let g := Pregel.add_edge "Analysis team" "SuperSupervisor" g in
  let g := Pregel.add_conditional_edges "SuperSupervisor" read_next
             (<["Analysis team" := "Analysis team"]>
              (<["Research team" := "Research team"]>
               (<["FINISH" := END]> ∅))) g in
  Pregel.set_entry_point "SuperSupervisor" g.

(** The state a team graph starts from when the outer graph enters it:
    the input its chain builds, written to the team's fresh channels. *)
Definition research_entry_state (state : SuperState)
  : result ResearchTeamState :=
  msg ← get_last_message state;
  Ok (apply_update empty_state (enter_research_chain msg)).

Definition analysis_entry_state (state : SuperState)
  : result SentimentState :=
  m ← last_item (messages state);
  let docs := default [] (documents state) in
  Ok (apply_update empty_state
        (enter_sentiment_chain
           {| message := content m; input_documents := Some docs |})).

(** *** [app/api/routes.py]: steps 7 and 8 of [analyze_video_stream] *)

(** The text of the [TypeError] of [x in None]. *)
Definition none_not_iterable : string :=
  "argument of type 'NoneType' is not iterable".

(** The body of the loop over the streamed events.  The update of a node
    that wrote nothing is streamed as [None], on which the test
    ["messages" in state_update] raises. *)
Definition progress_of (session : string)
    (ev : string * Update Empty_set) : result (list Event) :=
  if writes_nothing ev.2 then Raise (TypeError none_not_iterable)
  else
    Ok (match u_messages ev.2 with
        | Some msgs =>
            match last msgs with
            | Some last_message =>
                [agent_message (name last_message) (content last_message)
                   session ev.1]
            | None => []
            end
        | None => []
        end).

(** The events the loop consumes without raising: those before the first
    update that wrote nothing. *)
Fixpoint before_none (evs : list (string * Update Empty_set))
  : list (string * Update Empty_set) :=
  match evs with
  | [] => []
  | ev :: rest =>
      if writes_nothing ev.2 then [] else ev :: before_none rest
  end.

(** The loop [async for event in main_graph.astream(...)]: what it sends,
    and the exception of its body that ended it, if any. *)
Fixpoint stream_progress (session : string)
    (evs : list (string * Update Empty_set)) : list Event * option exn :=
  match evs with
  | [] => ([], None)
  | ev :: rest =>
      match progress_of session ev with
      | Raise e => ([], Some e)
      | Ok sent =>
          let later := stream_progress session rest in
          (sent ++ later.1, later.2)
      end
  end.

Definition report (e : exn) : Event :=
  format_error_message ("Error during analysis: " +:+ str_exn e).

(** [initial_state], the input of both calls. *)
Definition initial_state (question : string) : Update Empty_set :=
  {| u_messages := Some [HumanMessage question None];
     u_documents := None; u_team_members := None; u_next := None |}.

(** [main_graph.astream(input, config)] and [main_graph.ainvoke(input,
    config)] with [config] naming the thread: the same run of the graph,
    consumed update by update or for its final state. *)
Definition run_thread (saver : gmap string SuperState)
    (thread_id : string) (input : Update Empty_set)
  : Pregel.Run SuperState (Update Empty_set) * gmap string SuperState :=
  Pregel.astream_thread apply_update recursion_limit recursion_text
    build_main_graph empty_state saver thread_id input.

(** What the thread holds when the loop over the stream stopped on an
    exception of its own body: the run is not resumed, so the thread keeps
    the input and the updates streamed before; the update the body raised
    on wrote nothing. *)
Definition interrupted_thread (saver : gmap string SuperState)
    (thread_id : string) (input : Update Empty_set)
    (seen : list (string * Update Empty_set)) : gmap string SuperState :=
  <[thread_id :=
      foldl apply_update
        (apply_update (default empty_state (saver !! thread_id)) input)
        (map snd seen)]> saver.

(** One turn on the thread [session]: the streaming pass, then the call
    that fetches the final state.  Returns the events sent to the caller
    and the saver afterwards.  The one [except] clause of the handler
    catches what the loop body raises, what the streaming run raises and
    what the final call raises alike. *)
Definition analyze_video_stream (saver : gmap string SuperState)
    (session question : string) : list Event * gmap string SuperState :=
  let '(pass1, saver1) :=
    run_thread saver session (initial_state question) in
  let '(streamed, stopped) :=
    stream_progress session (Pregel.events pass1) in
  match stopped with
  | Some e =>
      (streamed ++ [report e],
       interrupted_thread saver session (initial_state question)
         (before_none (Pregel.events pass1)))
  | None =>
      match Pregel.outcome pass1 with
      | Some e => (streamed ++ [report e], saver1)
      | None =>
          let '(pass2, saver2) :=
            run_thread saver1 session (initial_state question) in
          match Pregel.outcome pass2 with
          | Some e => (streamed ++ [report e], saver2)
          | None =>
              let final_state := Pregel.final pass2 in
              match last (messages final_state) with
              | Some m =>
                  (streamed ++
                     [format_final_response (content m)
                        (default [] (documents final_state)) session],
                   saver2)
              | None =>
                  (streamed
                     ++ [format_error_message "No response generated"],
                   saver2)
              end
          end
      end
  end.

End System.

(** ** [app/utils/helpers.py]: [extract_video_id]

    The URL is a string of characters; the regular expressions are read
    character by character.  Only ASCII characters match the class or the
    literals, so a character outside ASCII behaves as any other character
    that matches nothing. *)

(** The class [[A-Za-z0-9_-]]. *)
Definition id_char (c : ascii) : bool :=
  let n := nat_of_ascii c in
  ((65 <=? n)%nat && (n <=? 90)%nat) || ((97 <=? n)%nat && (n <=? 122)%nat)
  || ((48 <=? n)%nat && (n <=? 57)%nat) || (n =? 95)%nat || (n =? 45)%nat.

Fixpoint all_id_chars (s : string) : bool :=
  match s with
  | EmptyString => true
  | String c s' => id_char c && all_id_chars s'
  end.

(** [[A-Za-z0-9_-]{n}] at the start of [s]: the characters matched and
    what follows them. *)
Fixpoint take_id (n : nat) (s : string) : option (string * string) :=
  match n with
  | O => Some (EmptyString, s)
  | S n' =>
      match s with
      | EmptyString => None
      | String c s' =>
          if id_char c
          then match take_id n' s' with
               | Some (v, rest) => Some (String c v, rest)
               | None => None
               end
          else None
      end
  end.

Definition newline : string := String (ascii_of_nat 10) EmptyString.

(** [re.match(r'^[A-Za-z0-9_-]{11}$', url)]: [$] matches at the end of the
    string and just before a newline that ends it. *)
Definition is_bare_id (url : string) : bool :=
  match take_id 11 url with
  | Some (_, rest) => bool_decide (rest = EmptyString ∨ rest = newline)
  | None => false
  end.

(** A literal at the start of [s]: what follows it. *)
Fixpoint strip_prefix (lit s : string) : option string :=
  match lit with
  | EmptyString => Some s
  | String c lit' =>
      match s with
      | EmptyString => None
      | String c' s' => if Ascii.eqb c c' then strip_prefix lit' s' else None
      end
  end.

(** The pattern [(?:lit)([A-Za-z0-9_-]{11})] at the start of [s]: its
    group. *)
Definition match_here (lit s : string) : option string :=
  match strip_prefix lit s with
  | Some after =>
      match take_id 11 after with
      | Some (v, _) => Some v
      | None => None
      end
  | None => None
  end.

(** [re.search] of that pattern: the group of the leftmost match. *)
Fixpoint search_id (lit s : string) : option string :=
  match match_here lit s with
  | Some v => Some v
  | None =>
      match s with
      | EmptyString => None
      | String _ s' => search_id lit s'
      end
  end.

(** The literals of [patterns], in order. *)
Definition patterns : list string :=
  ["youtube.com/watch?v="; "youtu.be/"; "youtube.com/embed/";
   "youtube.com/v/"].

(** The loop over [patterns]. *)
Fixpoint first_match (ps : list string) (url : string) : option string :=
  match ps with
  | [] => None
  | p :: ps' =>
      match search_id p url with
      | Some v => Some v
      | None => first_match ps' url
      end
  end.

Definition extract_video_id (url : string) : option string :=
  if is_bare_id url then Some url else first_match patterns url.

(** Eleven characters of the class. *)
Definition valid_id (v : string) : Prop :=
  String.length v = 11 ∧ all_id_chars v = true.

Fixpoint has_slash (s : string) : bool :=
  match s with
  | EmptyString => false
  | String c s' => Ascii.eqb c "/"%char || has_slash s'
  end.

(** ** [app/api/routes.py]: the whole of [analyze_video_stream]

    The request handler around the two runs modelled above.  What it calls
    outside the session store and [extract_video_id] is an argument: the
    fetch of the video data, the preparation of the documents, and the two
    groups of constructors of steps 5 and 6.  Each may raise; the handler's
    [try] turns any exception into one error line. *)

Module Routes.
Section Request.

Context {Retriever Rag Blob : Type}.

(** The compiled outer graph a session holds: what one turn on it does
    (steps 7 and 8, [analyze_video_stream] above with its collaborators
    fixed), and the memory of its checkpointer, which a turn changes. *)
Record CompiledGraph := mkCompiledGraph {
  graph_turn :
    gmap string SuperState → string → string
    → list Event * gmap string SuperState;
  graph_memory : gmap string SuperState
}.

Abbreviation Store :=
  (SessionManager.SessionManager CompiledGraph Retriever Blob).

(** The lines the handler yields. *)
Inductive Line :=
| progress (text : string)
| session_created (sid vid title channel : string)
| event (e : Event).

(** [create_unified_video_document(video_id, max_comments)]. *)
Variable create_unified_video_document :
  string → Z → result (Document * gmap string Blob).
(** [prepare_documents_for_retrieval(unified_document,
    raw_blobs["formatted_comments"])]: the context document, the comment
    documents, the documents for the store.  The subscript is part of the
    step: a missing key raises here, between the same two progress
    lines. *)
Variable prepare_documents_for_retrieval :
  Document → gmap string Blob
  → result (Document * list Document * list Document).
(** Step 5: [create_bm25_retriever], [create_generator_llm],
    [build_rag_graph]. *)
Variable build_retrieval : list Document → result (Retriever * Rag).
(** Step 6: the chat models, the tools (with the subscript
    [raw_blobs["transcript"]]), the three graphs; the result is what a
    turn on the compiled outer graph does. *)
Variable build_agents :
  Rag → string → string → gmap string Blob
  → result (gmap string SuperState → string → string
            → list Event * gmap string SuperState).

(** What a request reads from outside: the uuid and the clock, one
    reading per place the code reads it. *)
Record Ambient := mkAmbient {
  uuid4 : string;
  now_created : Z;
  now_accessed : Z;
  now_update : Z;
  now_get_check : Z;
  now_get_touch : Z
}.

(** [metadata.get(key, default)]. *)
Fixpoint metadata_get (key default : string) (md : list (string * string))
  : string :=
  match md with
  | [] => default
  | (k, v) :: md' => if String.eqb k key then v else metadata_get key default md'
  end.

(** Steps 7 and 8 on the graph [g], whose memory the turn changes. *)
Definition run_turn (g : CompiledGraph) (sid question : string)
  : list Line * CompiledGraph :=
  let out := graph_turn g (graph_memory g) sid question in
  (progress "Starting analysis..." :: map event out.1,
   {| graph_turn := graph_turn g; graph_memory := out.2 |}).

(** The session of the store and the handler share the graph object: the
    memory a turn leaves is the one the store holds. *)
Definition set_graph (sid : string) (g : CompiledGraph) (store : Store)
  : Store :=
  SessionManager.set_sessions store
    (alter (λ session,
              SessionManager.mkVideoSession
                (SessionManager.session_id session)
                (SessionManager.video_id session)
                (SessionManager.video_title session)
                (SessionManager.channel_name session)
                (SessionManager.created_at session)
                (SessionManager.last_accessed session)
                (Some g)
                (SessionManager.documents session)
                (SessionManager.bm25_retriever session)
                (SessionManager.raw_blobs session))
       sid (SessionManager._sessions store)).

Definition not_found : Line :=
  event (format_error_message
           "Session not found or expired. Please start a new analysis.").

(** The branch [if session_id:].  [session_id[:8]] is taken on the bytes
    of the identifier, which are its characters for the identifiers the
    store hands out ([uuid4] strings). *)
Definition follow_up (env : Ambient) (sid question : string) (store : Store)
  : list Line * Store :=
  let head :=
    progress ("Continuing conversation in session: "
              +:+ String.substring 0 8 sid +:+ "...") in
  match SessionManager.get_session (now_get_check env) (now_get_touch env)
          sid store with
  | (Some session, store') =>
      match SessionManager.main_graph session with
      | Some g =>
          let out := run_turn g sid question in
          (head
             :: progress ("Using cached data for: "
                          +:+ SessionManager.video_title session)
             :: out.1,
           set_graph sid out.2 store')
      | None => ([head; not_found], store')
      end
  | (None, store') => ([head; not_found], store')
  end.

(** The branch [else:], steps 1 to 6, then steps 7 and 8. *)
Definition new_session (env : Ambient) (url : string) (max_comments : Z)
    (question : string) (store : Store) : list Line * Store :=
  match extract_video_id url with
  | None =>
      ([event (format_error_message "Invalid YouTube URL or video ID")],
       store)
  | Some video_id =>
      let l1 :=
        [progress ("Analyzing video: " +:+ video_id);
         progress "Fetching video data, comments, and transcript..."] in
      match create_unified_video_document video_id max_comments with
      | Raise e => (l1 ++ [event (report e)], store)
      | Ok (unified_document, raw_blobs) =>
          let title :=
            metadata_get "title" "Unknown" (metadata unified_document) in
          let channel :=
            metadata_get "channel" "Unknown" (metadata unified_document) in
          let created :=
            SessionManager.create_session (uuid4 env) (now_created env)
              (now_accessed env) video_id title channel store in
          let sid := created.1 in
          let l2 :=
            l1 ++ [progress ("Video: " +:+ title +:+ " by " +:+ channel);
                   session_created sid video_id title channel;
                   progress "Preparing documents for retrieval..."] in
          match prepare_documents_for_retrieval unified_document raw_blobs
          with
          | Raise e => (l2 ++ [event (report e)], created.2)
          | Ok (_, comment_docs, docs_for_store) =>
              let l3 :=
                l2 ++ [progress ("Prepared "
                                 +:+ pretty (length docs_for_store)
                                 +:+ " documents ("
                                 +:+ pretty (length comment_docs)
                                 +:+ " comments)");
                       progress "Building retrieval system..."] in
              match build_retrieval docs_for_store with
              | Raise e => (l3 ++ [event (report e)], created.2)
              | Ok (bm25_retriever, rag) =>
                  let l4 :=
                    l3 ++ [progress
                             "Initializing multi-agent system with memory..."]
                  in
                  match build_agents rag title channel raw_blobs with
                  | Raise e => (l4 ++ [event (report e)], created.2)
                  | Ok turn_fn =>
                      let g := mkCompiledGraph turn_fn ∅ in
                      let updated :=
                        SessionManager.update_session (now_update env) sid
                          (Some g) (Some docs_for_store)
                          (Some bm25_retriever) (Some raw_blobs)
                          created.2 in
                      let out := run_turn g sid question in
                      (l4 ++ out.1, set_graph sid out.2 updated)
                  end
              end
          end
      end
  end.

(** [analyze_video_stream(url, max_comments, question, session_id)]: an
    absent or empty [session_id] starts a new session. *)
Definition stream_request (env : Ambient) (url : string) (max_comments : Z)
    (question : string) (session_id : option string) (store : Store)
  : list Line * Store :=
  match session_id with
  | Some (String c sid') => follow_up env (String c sid') question store
  | _ => new_session env url max_comments question store
  end.

(** A line that closes a request with an error. *)
Definition is_error_line (l : Line) : Prop :=
  match l with
  | event (error_message _) => True
  | _ => False
  end.

Definition is_session_created (l : Line) : Prop :=
  match l with
  | session_created _ _ _ _ => True
  | _ => False
  end.

(** The session [create_session] stores for a new request: no graph, no
    documents, no retriever, no raw data yet. *)
Definition fresh_session (env : Ambient) (vid title channel : string)
  : SessionManager.VideoSession CompiledGraph Retriever Blob :=
  SessionManager.mkVideoSession (uuid4 env) vid title channel
    (now_created env) (now_accessed env) None [] None ∅.

End Request.
Arguments CompiledGraph : clear implicits.
Arguments Line : clear implicits.
End Routes.

(** ** Scripted collaborators

    Concrete stand-ins for the external models and executors, used to run
    the graphs on explicit inputs. *)

Module Scenario.

(** The parser output of a model that calls [route] with [next = choice]. *)
Definition route_call (choice : string) : list ToolCall :=
  [mkToolCall "route" (Some {["next" := choice]})].

(** A model that always routes to [choice]. *)
Definition llm_always (choice : string)
  : string → list string → list Message → result (list ToolCall) :=
  λ _ _ _, Ok (route_call choice).

(** A model whose choice depends on the length of the log. *)
Definition llm_by_length (choice : nat → string)
  : string → list string → list Message → result (list ToolCall) :=
  λ _ _ log, Ok (route_call (choice (length log))).

(** An executor whose agent answers [text] without calling a tool. *)
Definition agent_says {M} (text : string)
  : GraphState M → result AgentResult :=
  create_agent (λ _, Ok (mkAgentFinish text [])).

(** An executor whose call fails. *)
Definition agent_fails {M} (text : string)
  : GraphState M → result AgentResult :=
  create_agent (λ _, Raise (CapabilityError text)).

(** An executor whose retrieval tool handed back [docs]. *)
Definition agent_retrieves {M} (text : string) (docs : list Document)
  : GraphState M → result AgentResult :=
  create_agent
    (λ _, Ok (mkAgentFinish text
                [("retrieve_information",
                  ObsDict (Some text) (Some docs))])).

Definition comment : Document :=
  mkDocument "great video" [("type", "comment")].

Definition question : Message := HumanMessage "What do people think?" None.
Definition answer : Message :=
  HumanMessage "Mostly positive." (Some "Sentiment").

Definition limit_text : string :=
  "Recursion limit reached without hitting a stop condition.".

(** A thread that already holds one finished turn. *)
Definition earlier_turn : SuperState :=
  {| messages := [question; answer]; documents := Some [comment];
     team_members := None; next := Some "FINISH" |}.

Definition saver : gmap string SuperState := {["s1" := earlier_turn]}.

(** Every router answers [FINISH] at once. *)
Definition quiet_turn :=
  analyze_video_stream 25 limit_text
    (llm_always "FINISH") (llm_always "FINISH") (llm_always "FINISH")
    (agent_says "links") (agent_says "comments")
    (agent_says "topics") (agent_says "positive") "" "" "".

Definition quiet_run :=
  run_thread 25 limit_text
    (llm_always "FINISH") (llm_always "FINISH") (llm_always "FINISH")
    (agent_says "links") (agent_says "comments")
    (agent_says "topics") (agent_says "positive") "" "" "".

(** A model whose routing call carries no arguments. *)
Definition llm_silent
  : string → list string → list Message → result (list ToolCall) :=
  λ _ _ _, Ok [mkToolCall "route" None].

(** The outer router writes nothing. *)
Definition silent_turn :=
  analyze_video_stream 25 limit_text
    (llm_always "FINISH") (llm_always "FINISH") llm_silent
    (agent_says "links") (agent_says "comments")
    (agent_says "topics") (agent_says "positive") "" "" "".

(** The outer router emits a name that is no team. *)
Definition stray_turn :=
  analyze_video_stream 25 limit_text
    (llm_always "FINISH") (llm_always "FINISH") (llm_always "Bogus")
    (agent_says "links") (agent_says "comments")
    (agent_says "topics") (agent_says "positive") "" "" "".


Definition looping_run :=
  run_thread 2 limit_text
    (llm_always "VideoSearch") (llm_always "FINISH")
    (llm_always "Research team")
    (agent_says "links") (agent_says "comments")
    (agent_says "topics") (agent_says "positive") "" "" "".


Definition failing_run :=
  run_thread 2 limit_text
    (llm_always "VideoSearch") (llm_always "FINISH")
    (llm_always "Research team")
    (agent_fails "The search tool timed out") (agent_says "comments")
    (agent_says "topics") (agent_says "positive") "" "" "".

(** The Research router asks for [CommentFinder] once, then finishes. *)
Definition finder_once (log_length : nat) : string :=
  match log_length with
  | 1 => "CommentFinder"
  | _ => "FINISH"
  end.

Definition reply : Document :=
  mkDocument "thanks for sharing" [("type", "comment")].

(** The Analysis router asks for [Sentiment] once, then finishes. *)
Definition sentiment_once (log_length : nat) : string :=
  match log_length with
  | 1 => "Sentiment"
  | _ => "FINISH"
  end.

Definition analysis_once :=
  analysis_chain 25 limit_text (llm_by_length sentiment_once)
    (agent_says "topics") (agent_says "positive") "".

(** A store with one session, last accessed at time 0, and the default
    TTL of 24 hours. *)
Definition session : SessionManager.VideoSession unit unit unit :=
  SessionManager.mkVideoSession "s1" "dQw4w9WgXcQ" "A video" "A channel"
    0 0 (Some ()) [comment] None ∅.

Definition store : SessionManager.SessionManager unit unit unit :=
  SessionManager.mkSessionManager {["s1" := session]}
    (24 * SessionManager.microseconds_per_hour).

Definition hours (n : Z) : Z := (n * SessionManager.microseconds_per_hour)%Z.

End Scenario.

(** Requests used as examples: a store whose session holds the graph of
    [Scenario.quiet_turn], and collaborators that succeed or fail. *)
Module Requests.

Definition graph : Routes.CompiledGraph :=
  Routes.mkCompiledGraph Scenario.quiet_turn Scenario.saver.

Definition session
  : SessionManager.VideoSession Routes.CompiledGraph unit unit :=
  SessionManager.mkVideoSession "s1" "dQw4w9WgXcQ" "A video" "A channel"
    0 0 (Some graph) [Scenario.comment] None ∅.

Definition store
  : SessionManager.SessionManager Routes.CompiledGraph unit unit :=
  SessionManager.mkSessionManager {["s1" := session]}
    (24 * SessionManager.microseconds_per_hour).

(** A request whose clock reads [t] throughout and whose uuid is [s2]. *)
Definition at_time (t : Z) : Routes.Ambient :=
  Routes.mkAmbient "s2" t t t t t.

Definition video : Document :=
  mkDocument "Title: A video" [("title", "A video"); ("channel", "A channel")].

(** The raw data of a fetch hold the keys the handler subscripts. *)
Definition blobs : gmap string unit :=
  {["formatted_comments" := (); "transcript" := ()]}.

Definition fetch : string → Z → result (Document * gmap string unit) :=
  λ _ _, Ok (video, blobs).

Definition prepare
  : Document → gmap string unit
    → result (Document * list Document * list Document) :=
  λ d _, Ok (d, [Scenario.comment], [d; Scenario.comment]).

Definition retrieval : list Document → result (unit * unit) :=
  λ _, Ok ((), ()).

Definition agents
  : unit → string → string → gmap string unit
    → result (gmap string SuperState → string → string
              → list Event * gmap string SuperState) :=
  λ _ _ _ _, Ok Scenario.quiet_turn.

Definition agents_fail
  : unit → string → string → gmap string unit
    → result (gmap string SuperState → string → string
              → list Event * gmap string SuperState) :=
  λ _ _ _ _, Raise (CapabilityError "The api_key client option must be set").

End Requests.

(** ** Vocabulary of the statements *)

(** The dict the three builders hand to [add_conditional_edges], by member
    list: every member maps to its own node, [FINISH] to [END]. *)
Definition route_map (members : list string) : gmap string string :=
  list_to_map (map (λ m, (m, m)) members ++ [("FINISH", END)]).

(** The shape the three builders give their graph: the router is the entry
    point and the only node with conditional edges, which read [next]
    through [route_map]; the other nodes are the members, each with one
    edge, to the router. *)
Definition hub {M} (g : Pregel.StateGraph (GraphState M) (Update M))
    (router : string) (members : list string) : Prop :=
  Pregel.entry_point g = router
  ∧ Pregel.branches g !! router
    = Some (Pregel.mkBranch read_next (route_map members))
  ∧ (∀ m, m ∈ members →
       Pregel.branches g !! m = None ∧ Pregel.edges g !! m = Some router)
  ∧ (∀ n, is_Some (Pregel.nodes g !! n) → n = router ∨ n ∈ members)
  ∧ (router ∉ members) ∧ ("FINISH" ∉ members) ∧ (END ∉ members)
  ∧ router ≠ END.

(** Every hop of the graph passes through the router: a member is followed
    by the router, whatever the state; the router is followed by a member
    or, when [next] is [FINISH], by [END]; no node but the router is
    followed by [END]; and no run, from any node and under any budget,
    visits two members in a row. *)
Definition routed_through_router {M} (limit_text : string)
    (g : Pregel.StateGraph (GraphState M) (Update M))
    (router : string) (members : list string) : Prop :=
  (∀ m s, m ∈ members → Pregel.next_node g m s = Ok router)
  ∧ (∀ s dest, Pregel.next_node g router s = Ok dest →
       (dest = END ∧ next s = Some "FINISH")
       ∨ (dest ∈ members ∧ next s = Some dest))
  ∧ (∀ n s, is_Some (Pregel.nodes g !! n) →
       Pregel.next_node g n s = Ok END →
       n = router ∧ next s = Some "FINISH")
  ∧ (∀ fuel cur s,
       ¬ Pregel.direct_hop members
           (map fst (Pregel.events
                       (Pregel.pregel_loop apply_update limit_text
                          g fuel cur s)))).

(** The router of [g] runs on [s] and emits the name [r]. *)
Definition router_emits {M} (g : Pregel.StateGraph (GraphState M) (Update M))
    (router : string) (s : GraphState M) (r : string) : Prop :=
  ∃ action u, Pregel.nodes g !! router = Some action
              ∧ action s = Ok u ∧ u_next u = Some r.

(** A name the router emits outside [members ∪ {FINISH}] ends the run on
    the spot with a [KeyError]: nothing is committed, no node runs. *)
Definition unknown_route_is_fatal {M} (limit_text : string)
    (g : Pregel.StateGraph (GraphState M) (Update M))
    (router : string) (members : list string) : Prop :=
  ∀ fuel s r,
    router_emits g router s r →
    r ∉ "FINISH" :: members →
    Pregel.pregel_loop apply_update limit_text g (S fuel) router s
    = Pregel.mkRun [] s (Some (KeyError r)).

(** What a streamed update adds to the log. *)
Definition appended {M} (u : Update M) : list Message :=
  default [] (u_messages u).

(** The nodes of [ms] run one after the other, each followed by the
    router. *)
Definition rounds (router : string) (ms : list string) : list string :=
  flat_map (λ m, [m; router]) ms.

(** A run of [g] from its router that ends without an exception is the
    router, then a number of rounds of one member and the router, and it
    leaves [FINISH] in [next]. *)
Definition completes_in_rounds {M} (limit_text : string)
    (g : Pregel.StateGraph (GraphState M) (Update M))
    (router : string) (members : list string) : Prop :=
  ∀ fuel s,
    let r := Pregel.pregel_loop apply_update limit_text g fuel router s in
    Pregel.outcome r = None →
    next (Pregel.final r) = Some "FINISH"
    ∧ ∃ ms, Forall (λ m, m ∈ members) ms
            ∧ map fst (Pregel.events r) = router :: rounds router ms.


(** The names the messages of a list of updates are attributed to. *)
Definition attributions {M} (us : list (Update M)) : list (option string) :=
  map name (flat_map appended us).

(** What an event of the stream reports: the message and the node. *)
Definition event_message (e : Event) : option Message :=
  match e with
  | agent_message agent text _ _ => Some (HumanMessage text agent)
  | _ => None
  end.

Definition event_node (e : Event) : option string :=
  match e with
  | agent_message _ _ _ node => Some node
  | _ => None
  end.

(** An event that closes a turn. *)
Definition is_terminal (e : Event) : Prop :=
  match e with
  | agent_message _ _ _ _ => False
  | final_response _ _ _ | error_message _ => True
  end.

(** A step of the executor whose observation is a dict with a [documents]
    key. *)
Definition carries_documents (step : string * Observation) : Prop :=
  match step.2 with
  | ObsDict _ (Some _) => True
  | _ => False
  end.

(** * Properties *)

(** ** The session store *)

Section SessionStore.

Context {Graph Retriever Blob : Type}.
Abbreviation Session := (SessionManager.VideoSession Graph Retriever Blob).
Abbreviation Manager := (SessionManager.SessionManager Graph Retriever Blob).
Implicit Types (self : Manager) (s : Session) (sid : string).

Lemma delete_session_lookup self sid :
  SessionManager._sessions (SessionManager.delete_session sid self) !! sid
  = None.
Proof.
  unfold SessionManager.delete_session.
  destruct (SessionManager._sessions self !! sid) eqn:E; simpl; [|done].
  apply lookup_delete_eq.
Qed.

Lemma get_session_expired self sid s now_check now_touch :
  SessionManager._sessions self !! sid = Some s →
  (SessionManager._session_ttl self
     < now_check - SessionManager.last_accessed s)%Z →
  SessionManager.get_session now_check now_touch sid self
  = (None, SessionManager.delete_session sid self).
Proof.
  intros Hs Hlate. unfold SessionManager.get_session. rewrite Hs.
  rewrite bool_decide_eq_true_2; [done | lia].
Qed.

Lemma get_session_live self sid s now_check now_touch :
  SessionManager._sessions self !! sid = Some s →
  (now_check - SessionManager.last_accessed s
     ≤ SessionManager._session_ttl self)%Z →
  SessionManager.get_session now_check now_touch sid self
  = (Some (SessionManager.touch now_touch s),
     SessionManager.set_sessions self
       (<[sid := SessionManager.touch now_touch s]>
          (SessionManager._sessions self))).
Proof.
  intros Hs Hin. unfold SessionManager.get_session. rewrite Hs.
  rewrite bool_decide_eq_false_2; [done | lia].
Qed.

(** C4.  For a session held by the store: a [get_session] whose clock
    reading is more than the TTL after the session's last access returns
    [None] and leaves the store without the session; a [get_session]
    within the TTL returns the session with [last_accessed] set to the
    current clock reading, the store holding that same bumped session; so
    whatever [get_session] returns had not lapsed when it was read. *)
Theorem get_session_sliding_expiry self sid s now_check now_touch :
  SessionManager._sessions self !! sid = Some s →
  let out := SessionManager.get_session now_check now_touch sid self in
  ((SessionManager._session_ttl self
      < now_check - SessionManager.last_accessed s)%Z →
     out.1 = None ∧ SessionManager._sessions out.2 !! sid = None)
  ∧ ((now_check - SessionManager.last_accessed s
        ≤ SessionManager._session_ttl self)%Z →
     out.1 = Some (SessionManager.touch now_touch s)
     ∧ SessionManager.last_accessed (SessionManager.touch now_touch s)
       = now_touch
     ∧ SessionManager._sessions out.2 !! sid
       = Some (SessionManager.touch now_touch s))
  ∧ (∀ r, out.1 = Some r →
       ¬ SessionManager.lapsed self now_check s
       ∧ SessionManager.last_accessed r = now_touch).
Proof.
  intros Hs out. subst out. split; [|split].
  - intros Hlate. rewrite (get_session_expired _ _ _ _ _ Hs) by done.
    split; [done|]. apply delete_session_lookup.
  - intros Hin. rewrite (get_session_live _ _ _ _ _ Hs) by done.
    split; [done|]. split; [done|]. apply lookup_insert_eq.
  - intros r Hret.
    destruct (decide (SessionManager._session_ttl self
                      < now_check - SessionManager.last_accessed s)%Z)
      as [Hlate|Hin].
    + by rewrite (get_session_expired _ _ _ _ _ Hs) in Hret.
    + rewrite (get_session_live _ _ _ _ _ Hs) in Hret by lia.
      injection Hret as <-. split; [|done].
      unfold SessionManager.lapsed. lia.
Qed.

(** C10.  [update_session] leaves the manager as it is for an identifier
    the store does not hold; for a session the store holds it runs no
    expiry test: even when the session lapsed long ago, so that a
    [get_session] at that moment would return [None], the update stores
    the session with [last_accessed] set to the clock reading, and a
    [get_session] issued within the TTL of that reading returns it. *)
Theorem update_session_revives_lapsed :
  (∀ self sid now g d r b,
     SessionManager._sessions self !! sid = None →
     SessionManager.update_session now sid g d r b self = self)
  ∧ (∀ self sid s now g d r b,
       SessionManager._sessions self !! sid = Some s →
       SessionManager.lapsed self now s →
       let self' := SessionManager.update_session now sid g d r b self in
       (SessionManager.get_session now now sid self).1 = None
       ∧ (∃ s', SessionManager._sessions self' !! sid = Some s'
                ∧ SessionManager.last_accessed s' = now
                ∧ SessionManager.session_id s'
                  = SessionManager.session_id s
                ∧ ∀ later later',
                    (later - now ≤ SessionManager._session_ttl self)%Z →
                    (SessionManager.get_session later later' sid self').1
                    = Some (SessionManager.touch later' s'))).
Proof.
  split.
  - intros self sid now g d r b Hnone.
    unfold SessionManager.update_session. by rewrite Hnone.
  - intros self sid s now g d r b Hs Hlapsed self'. split.
    + unfold SessionManager.lapsed in Hlapsed.
      rewrite (get_session_expired _ _ _ _ _ Hs) by lia. done.
    + subst self'. unfold SessionManager.update_session. rewrite Hs.
      eexists. split; [apply lookup_insert_eq|].
      repeat split. intros later later' Hin.
      erewrite get_session_live; [done|simpl; apply lookup_insert_eq|].
      simpl. lia.
Qed.

End SessionStore.

(** ** The engine *)

Section EngineFacts.

Context {St Upd : Type}.
Variable apply : St → Upd → St.
Variable limit_text : string.
Implicit Types (g : Pregel.StateGraph St Upd) (s : St) (cur : string).

Abbreviation loop := (Pregel.pregel_loop apply limit_text).




(** A property of the state that every node keeps holds at the end of
    every run. *)
Lemma final_invariant (P : St → Prop) g fuel cur s :
  (∀ n action s' u,
     Pregel.nodes g !! n = Some action → P s' → action s' = Ok u →
     P (apply s' u)) →
  P s → P (Pregel.final (loop g fuel cur s)).
Proof.
  intros Hkeep. revert cur s.
  induction fuel as [|fuel IH]; intros cur s Hs; simpl; [done|].
  destruct (decide (cur = END)); [done|].
  destruct (Pregel.nodes g !! cur) as [action|] eqn:Hnode; [|done].
  destruct (action s) as [u|e] eqn:Hrun; [|done].
  destruct (Pregel.next_node g cur (apply s u)) as [dest|e]; [|done].
  simpl. apply IH. by eapply Hkeep.
Qed.

(** A node that raises ends the run with its exception. *)
Lemma loop_node_raises g fuel cur s action e :
  cur ≠ END →
  Pregel.nodes g !! cur = Some action →
  action s = Raise e →
  loop g (S fuel) cur s = Pregel.mkRun [] s (Some e).
Proof.
  intros Hcur Hnode Hraise. simpl.
  destruct (decide (cur = END)); [done|]. by rewrite Hnode, Hraise.
Qed.

(** The state a run ends with is the start state with the streamed
    updates written to it, in order. *)
Lemma final_is_fold g fuel cur s :
  Pregel.final (loop g fuel cur s)
  = foldl apply s (map snd (Pregel.events (loop g fuel cur s))).
Proof.
  revert cur s. induction fuel as [|fuel IH]; intros cur s; simpl.
  - by destruct (decide (cur = END)).
  - destruct (decide (cur = END)); [done|].
    destruct (Pregel.nodes g !! cur) as [action|]; [|done].
    destruct (action s) as [u|e]; [|done].
    destruct (Pregel.next_node g cur (apply s u)) as [dest|e]; [|done].
    simpl. apply IH.
Qed.

Lemma events_walk g fuel cur s :
  Pregel.walk g cur (map fst (Pregel.events (loop g fuel cur s))).
Proof.
  revert cur s. induction fuel as [|fuel IH]; intros cur s; simpl.
  - destruct (decide (cur = END)); constructor.
  - destruct (decide (cur = END)); [constructor|].
    destruct (Pregel.nodes g !! cur) as [action|]; [|constructor].
    destruct (action s) as [u|e]; [|constructor].
    destruct (Pregel.next_node g cur (apply s u)) as [dest|e] eqn:Hnext;
      [|constructor].
    simpl. econstructor; [exact Hnext|apply IH].
Qed.

Lemma walk_head g cur x rest : Pregel.walk g cur (x :: rest) → x = cur.
Proof. by inversion 1. Qed.

Lemma walk_no_direct_hop g router members cur trace :
  router ∉ members →
  (∀ m s dest, m ∈ members →
     Pregel.next_node g m s = Ok dest → dest = router) →
  Pregel.walk g cur trace →
  ¬ Pregel.direct_hop members trace.
Proof.
  intros Hrouter Hback Hwalk. induction Hwalk as [|cur s dest rest Hn Hw IH].
  - intros (i & a & b & Ha & _). by rewrite lookup_nil in Ha.
  - intros (i & a & b & Ha & Hb & Hma & Hmb).
    destruct i as [|i].
    + simpl in Ha, Hb. injection Ha as <-.
      destruct rest as [|x rest]; [done|]. simpl in Hb. injection Hb as ->.
      apply walk_head in Hw. subst dest.
      apply Hrouter. by rewrite <- (Hback _ _ _ Hma Hn).
    + apply IH. exists i, a, b. done.
Qed.

End EngineFacts.

(** ** Graphs of the hub shape *)

Section HubFacts.

Context {M : Type}.
Variable limit_text : string.
Implicit Types (g : Pregel.StateGraph (GraphState M) (Update M)).
Implicit Types (s : GraphState M) (members : list string).

Lemma route_map_lookup members r :
  "FINISH" ∉ members →
  route_map members !! r
  = if decide (r ∈ members) then Some r
    else if decide (r = "FINISH") then Some END else None.
Proof.
  unfold route_map. induction members as [|m members IH]; intros Hfin.
  - simpl. destruct (decide (r ∈ [])) as [Hin|_]; [by set_solver|].
    destruct (decide (r = "FINISH")) as [->|Hne].
    + apply lookup_insert_eq.
    + rewrite lookup_insert_ne by done. apply lookup_empty.
  - simpl. destruct (decide (m = r)) as [->|Hne].
    + rewrite lookup_insert_eq.
      destruct (decide (r ∈ r :: members)); [done|set_solver].
    + rewrite lookup_insert_ne by done. rewrite IH by set_solver.
      destruct (decide (r ∈ members)) as [Hin|Hout];
        destruct (decide (r ∈ m :: members)) as [Hin'|Hout'];
        try done.
      * exfalso. apply Hout'. by right.
      * exfalso. apply elem_of_cons in Hin' as [->|?]; done.
Qed.

Lemma hub_member_next g router members m s :
  hub g router members → m ∈ members →
  Pregel.next_node g m s = Ok router.
Proof.
  intros (_ & _ & Hm & _) Hin. destruct (Hm m Hin) as [Hb He].
  unfold Pregel.next_node. by rewrite Hb, He.
Qed.

Lemma hub_router_next g router members s :
  hub g router members →
  Pregel.next_node g router s
  = match next s with
    | None => Raise (KeyError "next")
    | Some r =>
        if decide (r ∈ members) then Ok r
        else if decide (r = "FINISH") then Ok END
             else Raise (KeyError r)
    end.
Proof.
  intros (_ & Hb & _ & _ & _ & Hfin & _).
  unfold Pregel.next_node. rewrite Hb. simpl. unfold read_next.
  destruct (next s) as [r|]; [|done]. simpl.
  rewrite route_map_lookup by done.
  destruct (decide (r ∈ members)); [done|].
  by destruct (decide (r = "FINISH")).
Qed.

Lemma hub_routed g router members :
  hub g router members →
  routed_through_router limit_text g router members.
Proof.
  intros Hhub.
  assert (Hback : ∀ m s, m ∈ members →
                    Pregel.next_node g m s = Ok router)
    by (intros; by eapply hub_member_next).
  pose proof Hhub as (He & Hb & Hm & Hn & Hr & Hfin & Hend & Hre).
  split; [done|]. split; [|split; [|]].
  - intros s dest. rewrite (hub_router_next _ _ _ _ Hhub).
    destruct (next s) as [r|]; [|done].
    destruct (decide (r ∈ members)).
    { intros [= <-]. by right. }
    destruct (decide (r = "FINISH")) as [->|]; [|done].
    intros [= <-]. by left.
  - intros n s Hnode Hnext. destruct (Hn n Hnode) as [->|Hin].
    + split; [done|].
      rewrite (hub_router_next _ _ _ _ Hhub) in Hnext.
      destruct (next s) as [r|]; [|done].
      destruct (decide (r ∈ members)).
      { injection Hnext as ->. done. }
      destruct (decide (r = "FINISH")) as [->|]; done.
    + rewrite Hback in Hnext by done. congruence.
  - intros fuel cur s.
    eapply (walk_no_direct_hop g router members cur); [done| |].
    + intros m s' dest Hin. rewrite Hback by done. congruence.
    + apply events_walk.
Qed.

Lemma hub_unknown_route g router members :
  hub g router members →
  unknown_route_is_fatal limit_text g router members.
Proof.
  intros Hhub fuel s r (action & u & Hnode & Hrun & Hnext) Hunknown.
  assert (Hne : router ≠ END) by apply Hhub.
  simpl. destruct (decide (router = END)); [done|].
  rewrite Hnode, Hrun. rewrite (hub_router_next _ _ _ _ Hhub).
  simpl. rewrite Hnext. simpl.
  destruct (decide (r ∈ members)); [set_solver|].
  destruct (decide (r = "FINISH")); [set_solver|done].
Qed.

Lemma hub_unknown_route_budget g router members fuel s r :
  hub g router members →
  (0 < fuel)%nat →
  router_emits g router s r →
  r ∉ "FINISH" :: members →
  Pregel.pregel_loop apply_update limit_text g fuel router s
  = Pregel.mkRun [] s (Some (KeyError r)).
Proof.
  intros Hhub Hpos Hemit Hunknown. destruct fuel as [|fuel]; [lia|].
  by apply (hub_unknown_route g router members).
Qed.

End HubFacts.

(** ** Channels, node wrappers and the team boundary *)

Section StateFacts.

Context {M : Type}.
Implicit Types (s : GraphState M) (u : Update M) (us : list (Update M)).

Lemma fold_messages s us :
  messages (foldl apply_update s us)
  = messages s ++ flat_map appended us.
Proof.
  revert s. induction us as [|u us IH]; intros s; simpl.
  - by rewrite app_nil_r.
  - rewrite IH. simpl. by rewrite <- app_assoc.
Qed.

Lemma fold_documents s us :
  Forall (λ u, u_documents u = None) us →
  documents (foldl apply_update s us) = documents s.
Proof.
  intros Hnone. revert s.
  induction Hnone as [|u us Hu _ IH]; intros s; simpl; [done|].
  rewrite IH. simpl. by rewrite Hu.
Qed.

(** The log a run ends with is the log it started with, followed by what
    its committed steps appended. *)
Lemma run_messages limit_text
    (g : Pregel.StateGraph (GraphState M) (Update M)) fuel cur s :
  messages
    (Pregel.final (Pregel.pregel_loop apply_update limit_text g fuel cur s))
  = messages s
    ++ flat_map appended
         (map snd
            (Pregel.events
               (Pregel.pregel_loop apply_update limit_text g fuel cur s))).
Proof. rewrite final_is_fold. apply fold_messages. Qed.

(** A router writes [next] and nothing else. *)
Lemma supervisor_update llm prompt members s u :
  create_team_supervisor llm prompt members s = Ok u →
  u_messages u = None ∧ u_documents u = None.
Proof.
  unfold create_team_supervisor.
  destruct (llm prompt ("FINISH" :: members) (messages s)) as [out|e];
    simpl; [|done].
  destruct (extract_next out) as [args|calls]; simpl; [|done].
  by intros [= <-].
Qed.

Lemma join_graph_inv (response : GraphState M) (u : Update Empty_set) :
  join_graph response = Ok u →
  ∃ m, last (messages response) = Some m
       ∧ u_messages u = Some [m]
       ∧ u_documents u
         = (if truthy (default [] (documents response))
            then documents response else None).
Proof.
  unfold join_graph, last_item.
  destruct (last (messages response)) as [m|]; simpl; [|done].
  intros [= <-]. exists m. simpl. repeat split.
  destruct (documents response) as [d|]; [|done].
  simpl. by destruct (truthy d).
Qed.

Lemma join_graph_total (response : GraphState M) :
  messages response ≠ [] →
  ∃ u' : Update Empty_set, join_graph response = Ok u'.
Proof.
  intros Hne. unfold join_graph, last_item.
  destruct (last (messages response)) as [m|] eqn:Hlast; simpl; [eauto|].
  by apply last_None in Hlast.
Qed.

End StateFacts.

(** ** The loop over the stream *)

Lemma progress_of_inv session ev sent :
  progress_of session ev = Ok sent →
  writes_nothing ev.2 = false ∧ Forall (λ e, ¬ is_terminal e) sent.
Proof.
  unfold progress_of. destruct (writes_nothing ev.2); [done|].
  intros [= <-]. split; [done|].
  destruct (u_messages ev.2) as [msgs|]; [|constructor].
  destruct (last msgs); repeat constructor. by intros [].
Qed.

(** The loop sends no closing event. *)
Lemma stream_not_terminal session evs :
  Forall (λ e, ¬ is_terminal e) (stream_progress session evs).1.
Proof.
  induction evs as [|ev evs IH]; simpl; [constructor|].
  destruct (progress_of session ev) as [sent|e] eqn:Hbody; simpl;
    [|constructor].
  apply Forall_app. split; [|exact IH].
  by apply progress_of_inv in Hbody as [_ ?].
Qed.

(** The loop stops on an exception exactly when an update wrote nothing,
    and the exception is then the [TypeError] of the membership test. *)
Lemma stream_stopped session evs :
  (stream_progress session evs).2
  = if forallb (λ ev, negb (writes_nothing ev.2)) evs then None
    else Some (TypeError none_not_iterable).
Proof.
  induction evs as [|ev evs IH]; simpl; [done|].
  unfold progress_of. by destruct (writes_nothing ev.2).
Qed.

Lemma stream_clean session evs :
  (stream_progress session evs).2 = None → before_none evs = evs.
Proof.
  induction evs as [|ev evs IH]; simpl; [done|].
  unfold progress_of. destruct (writes_nothing ev.2); simpl; [done|].
  intros Hclean. by rewrite IH.
Qed.

(** ** The three graphs *)

Section GraphFacts.

Variable recursion_limit : nat.
Variable recursion_text : string.
Variable research_llm analysis_llm super_llm
  : string → list string → list Message → result (list ToolCall).
Variable search_agent research_agent
  : ResearchTeamState → result AgentResult.
Variable topic_agent sentiment_agent
  : SentimentState → result AgentResult.
Variable RESEARCH_SUPERVISOR_PROMPT ANALYSIS_SUPERVISOR_PROMPT
  SUPER_SUPERVISOR_PROMPT : string.

Abbreviation research_graph :=
  (build_research_graph research_llm search_agent research_agent
     RESEARCH_SUPERVISOR_PROMPT).
Abbreviation analysis_graph :=
  (build_analysis_graph analysis_llm topic_agent sentiment_agent
     ANALYSIS_SUPERVISOR_PROMPT).
Abbreviation main_graph :=
  (build_main_graph recursion_limit recursion_text
     research_llm analysis_llm super_llm
     search_agent research_agent topic_agent sentiment_agent
     RESEARCH_SUPERVISOR_PROMPT ANALYSIS_SUPERVISOR_PROMPT
     SUPER_SUPERVISOR_PROMPT).

Abbreviation turn :=
  (analyze_video_stream recursion_limit recursion_text
     research_llm analysis_llm super_llm
     search_agent research_agent topic_agent sentiment_agent
     RESEARCH_SUPERVISOR_PROMPT ANALYSIS_SUPERVISOR_PROMPT
     SUPER_SUPERVISOR_PROMPT).
Abbreviation thread_run :=
  (run_thread recursion_limit recursion_text
     research_llm analysis_llm super_llm
     search_agent research_agent topic_agent sentiment_agent
     RESEARCH_SUPERVISOR_PROMPT ANALYSIS_SUPERVISOR_PROMPT
     SUPER_SUPERVISOR_PROMPT).

Abbreviation research_run :=
  (research_chain recursion_limit recursion_text
     research_llm search_agent research_agent RESEARCH_SUPERVISOR_PROMPT).
Abbreviation analysis_run :=
  (analysis_chain recursion_limit recursion_text
     analysis_llm topic_agent sentiment_agent ANALYSIS_SUPERVISOR_PROMPT).
Abbreviation research_team :=
  (research_team_node recursion_limit recursion_text
     research_llm search_agent research_agent RESEARCH_SUPERVISOR_PROMPT).
Abbreviation analysis_team :=
  (get_messages_and_documents recursion_limit recursion_text
     analysis_llm topic_agent sentiment_agent ANALYSIS_SUPERVISOR_PROMPT).

Ltac hub_members :=
  intros m Hin;
  repeat (apply elem_of_cons in Hin as [->|Hin]; [by split|]);
  by apply elem_of_nil in Hin.

Ltac hub_nodes :=
  intros n [action Hnode];
  unfold build_research_graph, build_analysis_graph, build_main_graph
    in Hnode;
  cbn [Pregel.nodes Pregel.add_node Pregel.add_edge
       Pregel.add_conditional_edges Pregel.set_entry_point
       Pregel.new_graph] in Hnode;
  apply elem_of_dom_2 in Hnode;
  rewrite !dom_insert_L, dom_empty_L in Hnode;
  set_solver.

Ltac hub_shape :=
  split; [reflexivity|]; split; [reflexivity|];
  split; [hub_members|]; split; [hub_nodes|];
  repeat split; set_solver.

Lemma research_hub :
  hub research_graph "ResearchSupervisor" ["VideoSearch"; "CommentFinder"].
Proof. hub_shape. Qed.

Lemma analysis_hub :
  hub analysis_graph "AnalysisSupervisor" ["Topic"; "Sentiment"].
Proof. hub_shape. Qed.

Lemma main_hub :
  hub main_graph "SuperSupervisor" ["Research team"; "Analysis team"].
Proof. hub_shape. Qed.

(** Both team nodes run their graph from the entry state and hand the
    outcome to [join_graph]. *)
Lemma research_team_unfold state :
  research_team state
  = (entry ← research_entry_state state;
     result ← Pregel.to_result
       (Pregel.pregel_loop apply_update recursion_text research_graph
          recursion_limit "ResearchSupervisor" entry);
     join_graph (M := list string)
       {| messages := messages result;
          documents := Some (default [] (documents result));
          team_members := None; next := None |}).
Proof.
  unfold research_team_node, research_entry_state.
  destruct (get_last_message state) as [msg|e]; simpl; [|done].
  unfold research_chain, research_chain_with_docs, run_graph,
    Pregel.invoke, Pregel.astream.
  change (Pregel.entry_point research_graph) with "ResearchSupervisor".
  match goal with
  | |- context [Pregel.to_result ?r] =>
      destruct (Pregel.to_result r) as [result|e]
  end; simpl; [|done].
  by destruct (documents result).
Qed.

Lemma analysis_team_unfold state :
  analysis_team state
  = (entry ← analysis_entry_state state;
     result ← Pregel.to_result
       (Pregel.pregel_loop apply_update recursion_text analysis_graph
          recursion_limit "AnalysisSupervisor" entry);
     join_graph result).
Proof.
  unfold get_messages_and_documents, analysis_entry_state.
  destruct (last_item (messages state)) as [m|e]; simpl; [|done].
  unfold analysis_chain, run_graph, Pregel.invoke, Pregel.astream.
  change (Pregel.entry_point analysis_graph) with "AnalysisSupervisor".
  done.
Qed.

(** An exception that ends a team's run ends the outer run at the team's
    node, with nothing committed. *)
Lemma research_failure_ends_outer_run fuel state entry e :
  research_entry_state state = Ok entry →
  Pregel.outcome
    (Pregel.pregel_loop apply_update recursion_text research_graph
       recursion_limit "ResearchSupervisor" entry) = Some e →
  Pregel.pregel_loop apply_update recursion_text main_graph (S fuel)
    "Research team" state
  = Pregel.mkRun [] state (Some e).
Proof.
  intros Hentry Hfail.
  apply (loop_node_raises _ _ _ _ _ _ research_team);
    [done|reflexivity|].
  rewrite research_team_unfold, Hentry. simpl.
  unfold Pregel.to_result. by rewrite Hfail.
Qed.

Lemma analysis_failure_ends_outer_run fuel state entry e :
  analysis_entry_state state = Ok entry →
  Pregel.outcome
    (Pregel.pregel_loop apply_update recursion_text analysis_graph
       recursion_limit "AnalysisSupervisor" entry) = Some e →
  Pregel.pregel_loop apply_update recursion_text main_graph (S fuel)
    "Analysis team" state
  = Pregel.mkRun [] state (Some e).
Proof.
  intros Hentry Hfail.
  apply (loop_node_raises _ _ _ _ _ _ analysis_team);
    [done|reflexivity|].
  rewrite analysis_team_unfold, Hentry. simpl.
  unfold Pregel.to_result. by rewrite Hfail.
Qed.

(** C9.  In the Research graph, the Analysis graph and the outer graph
    alike, a member (or team) node is always followed by the level's
    router, the router is followed by a member or, on [FINISH], by the
    terminal node, no other node leads to the terminal node, and no run
    visits two members in a row. *)
Theorem every_hop_through_router :
  routed_through_router recursion_text research_graph
    "ResearchSupervisor" ["VideoSearch"; "CommentFinder"]
  ∧ routed_through_router recursion_text analysis_graph
      "AnalysisSupervisor" ["Topic"; "Sentiment"]
  ∧ routed_through_router recursion_text main_graph
      "SuperSupervisor" ["Research team"; "Analysis team"].
Proof.
  split; [|split]; apply hub_routed.
  - apply research_hub.
  - apply analysis_hub.
  - apply main_hub.
Qed.

(** A failed streaming pass ends the turn with the report of the
    exception and nothing else after the progress sent so far. *)
Lemma turn_of_failed_stream saver session question e :
  (stream_progress session
     (Pregel.events
        (thread_run saver session (initial_state question)).1)).2 = None →
  Pregel.outcome (thread_run saver session (initial_state question)).1
  = Some e →
  (turn saver session question).1
  = (stream_progress session
       (Pregel.events
          (thread_run saver session (initial_state question)).1)).1
    ++ [report e].
Proof.
  intros Hclean Hfail. unfold analyze_video_stream.
  destruct (thread_run saver session (initial_state question))
    as [pass1 saver1] eqn:Hrun.
  cbn [fst snd] in *.
  destruct (stream_progress session (Pregel.events pass1))
    as [streamed stopped].
  cbn [fst snd] in *. subst stopped. by rewrite Hfail.
Qed.

(** C5.  At each of the three levels, when the router emits a name that
    is neither a member nor [FINISH] the run stops there with a
    [KeyError] on that name: no member runs, the terminal node is not
    reached, nothing is committed.  At the outer level the turn then
    consists of the error report alone; inside a team, the exception that
    ends the team's run ends the outer run at the team's node. *)
Theorem unknown_route_never_falls_back :
  unknown_route_is_fatal recursion_text research_graph
    "ResearchSupervisor" ["VideoSearch"; "CommentFinder"]
  ∧ unknown_route_is_fatal recursion_text analysis_graph
      "AnalysisSupervisor" ["Topic"; "Sentiment"]
  ∧ unknown_route_is_fatal recursion_text main_graph
      "SuperSupervisor" ["Research team"; "Analysis team"]
  ∧ (∀ saver session question r,
       (0 < recursion_limit)%nat →
       router_emits main_graph "SuperSupervisor"
         (apply_update (default empty_state (saver !! session))
            (initial_state question)) r →
       r ∉ ["FINISH"; "Research team"; "Analysis team"] →
       (turn saver session question).1 = [report (KeyError r)])
  ∧ (∀ fuel state entry e,
       research_entry_state state = Ok entry →
       Pregel.outcome
         (Pregel.pregel_loop apply_update recursion_text research_graph
            recursion_limit "ResearchSupervisor" entry) = Some e →
       Pregel.pregel_loop apply_update recursion_text main_graph (S fuel)
         "Research team" state
       = Pregel.mkRun [] state (Some e))
  ∧ (∀ fuel state entry e,
       analysis_entry_state state = Ok entry →
       Pregel.outcome
         (Pregel.pregel_loop apply_update recursion_text analysis_graph
            recursion_limit "AnalysisSupervisor" entry) = Some e →
       Pregel.pregel_loop apply_update recursion_text main_graph (S fuel)
         "Analysis team" state
       = Pregel.mkRun [] state (Some e)).
Proof.
  split; [|split; [|split; [|split; [|split]]]];
    [| | | |apply research_failure_ends_outer_run
           |apply analysis_failure_ends_outer_run].
  - apply hub_unknown_route, research_hub.
  - apply hub_unknown_route, analysis_hub.
  - apply hub_unknown_route, main_hub.
  - intros saver session question r Hpos Hemit Hunknown.
    assert (Hstop :
      Pregel.pregel_loop apply_update recursion_text main_graph
        recursion_limit "SuperSupervisor"
        (apply_update (default empty_state (saver !! session))
           (initial_state question))
      = Pregel.mkRun []
          (apply_update (default empty_state (saver !! session))
             (initial_state question))
          (Some (KeyError r))).
    { by apply (hub_unknown_route_budget recursion_text _ _ _ _ _ _
                  main_hub). }
    rewrite (turn_of_failed_stream _ _ _ (KeyError r)).
    + unfold run_thread, Pregel.astream_thread, Pregel.astream.
      cbn [fst]. change (Pregel.entry_point main_graph)
        with "SuperSupervisor".
      by rewrite Hstop.
    + unfold run_thread, Pregel.astream_thread, Pregel.astream.
      cbn [fst]. change (Pregel.entry_point main_graph)
        with "SuperSupervisor".
      by rewrite Hstop.
    + unfold run_thread, Pregel.astream_thread, Pregel.astream.
      cbn [fst]. change (Pregel.entry_point main_graph)
        with "SuperSupervisor".
      by rewrite Hstop.
Qed.

(** C2, as the code has it.  Both team nodes run their graph from the
    entry state; that state's log is one fresh, unattributed message with
    the text of the last outer message.  The Analysis team also receives
    the outer document set (the empty list when the outer state has none)
    and the string of its member names; the Research team receives
    neither documents nor members. *)
Theorem team_entry_state :
  (∀ state,
     research_team state
     = (entry ← research_entry_state state;
        result ← Pregel.to_result
          (Pregel.pregel_loop apply_update recursion_text research_graph
             recursion_limit "ResearchSupervisor" entry);
        join_graph (M := list string)
          {| messages := messages result;
             documents := Some (default [] (documents result));
             team_members := None; next := None |}))
  ∧ (∀ state,
       analysis_team state
       = (entry ← analysis_entry_state state;
          result ← Pregel.to_result
            (Pregel.pregel_loop apply_update recursion_text analysis_graph
               recursion_limit "AnalysisSupervisor" entry);
          join_graph result))
  ∧ (∀ (state : SuperState) m,
       last (messages state) = Some m →
       research_entry_state state
       = Ok {| messages := [HumanMessage (content m) None];
               documents := None; team_members := None; next := None |}
       ∧ analysis_entry_state state
         = Ok {| messages := [HumanMessage (content m) None];
                 documents := Some (default [] (documents state));
                 team_members := Some "Topic, Sentiment";
                 next := None |}).
Proof.
  split; [|split].
  - apply research_team_unfold.
  - apply analysis_team_unfold.
  - intros state m Hlast.
    unfold research_entry_state, analysis_entry_state, get_last_message,
      last_item.
    rewrite Hlast. done.
Qed.

Abbreviation main_loop :=
  (Pregel.pregel_loop apply_update recursion_text main_graph
     recursion_limit "SuperSupervisor").

Lemma thread_run_unfold saver session input :
  thread_run saver session input
  = (main_loop
       (apply_update (default empty_state (saver !! session)) input),
     <[session :=
         Pregel.final
           (main_loop
              (apply_update (default empty_state (saver !! session))
                 input))]> saver).
Proof. reflexivity. Qed.

(** The saver after a turn whose streaming pass completed is the saver
    after the second run. *)
Lemma turn_saver saver session question :
  (stream_progress session
     (Pregel.events
        (thread_run saver session (initial_state question)).1)).2 = None →
  Pregel.outcome (thread_run saver session (initial_state question)).1
  = None →
  (turn saver session question).2
  = (thread_run
       (thread_run saver session (initial_state question)).2
       session (initial_state question)).2.
Proof.
  intros Hclean Hdone. unfold analyze_video_stream.
  destruct (thread_run saver session (initial_state question))
    as [pass1 saver1].
  cbn [fst snd] in *.
  destruct (stream_progress session (Pregel.events pass1))
    as [streamed stopped].
  cbn [fst snd] in *. subst stopped. rewrite Hdone.
  destruct (thread_run saver1 session (initial_state question))
    as [pass2 saver2].
  cbn [snd]. destruct (Pregel.outcome pass2); [done|].
  by destruct (last (messages (Pregel.final pass2))).
Qed.

(** C7, as the code has it.  When the streaming pass of a turn completes
    and the loop over it met no update that wrote nothing, the call that
    fetches the final state runs the graph a second time on the same
    thread with the same input: the log the thread holds after the turn is
    the log before it, the question, what the streaming pass appended, the
    question once more, and what the second run appended. *)
Theorem final_pass_appends_question_again saver session question :
  (stream_progress session
     (Pregel.events
        (thread_run saver session (initial_state question)).1)).2 = None →
  Pregel.outcome (thread_run saver session (initial_state question)).1
  = None →
  let pass1 := thread_run saver session (initial_state question) in
  let pass2 := thread_run pass1.2 session (initial_state question) in
  ∃ after,
    (turn saver session question).2 !! session = Some after
    ∧ messages after
      = messages (default empty_state (saver !! session))
        ++ [HumanMessage question None]
        ++ flat_map appended (map snd (Pregel.events pass1.1))
        ++ [HumanMessage question None]
        ++ flat_map appended (map snd (Pregel.events pass2.1)).
Proof.
  intros Hclean Hdone pass1 pass2. subst pass1 pass2.
  rewrite turn_saver by done.
  rewrite !thread_run_unfold. cbn [fst snd].
  rewrite !lookup_insert_eq. cbn [default from_option id].
  eexists. split; [done|].
  rewrite run_messages. cbn [apply_update messages initial_state
                               u_messages default].
  rewrite run_messages. cbn [apply_update messages initial_state
                               u_messages default].
  rewrite <- !app_assoc. reflexivity.
Qed.


End GraphFacts.

(** ** The statements on explicit inputs *)

(** C4 on the store of [Scenario]: a read 25 hours after the last access
    finds nothing, a read 23 hours after it returns the bumped session. *)
Lemma get_session_sliding_expiry_witness :
  (SessionManager.get_session (Scenario.hours 25) (Scenario.hours 25)
     "s1" Scenario.store).1 = None
  ∧ (SessionManager.get_session (Scenario.hours 23) (Scenario.hours 23)
       "s1" Scenario.store).1
    = Some (SessionManager.touch (Scenario.hours 23) Scenario.session).
Proof.
  split.
  - destruct (get_session_sliding_expiry Scenario.store "s1"
                Scenario.session (Scenario.hours 25) (Scenario.hours 25)
                eq_refl) as (Hlate & _ & _).
    apply Hlate. vm_compute. reflexivity.
  - destruct (get_session_sliding_expiry Scenario.store "s1"
                Scenario.session (Scenario.hours 23) (Scenario.hours 23)
                eq_refl) as (_ & Hlive & _).
    apply Hlive. vm_compute. discriminate.
Defined.

(** C10 on the same store: 30 hours after the last access a read finds
    nothing, yet an update at that moment brings the session back for a
    read one hour later. *)
Lemma update_session_revives_lapsed_witness :
  (SessionManager.get_session (Scenario.hours 30) (Scenario.hours 30)
     "s1" Scenario.store).1 = None
  ∧ ∃ s',
      SessionManager._sessions
        (SessionManager.update_session (Scenario.hours 30) "s1"
           None None None None Scenario.store) !! "s1" = Some s'
      ∧ SessionManager.last_accessed s' = Scenario.hours 30
      ∧ (SessionManager.get_session (Scenario.hours 31) (Scenario.hours 31)
           "s1"
           (SessionManager.update_session (Scenario.hours 30) "s1"
              None None None None Scenario.store)).1
        = Some (SessionManager.touch (Scenario.hours 31) s').
Proof.
  assert (Hlapsed : SessionManager.lapsed Scenario.store (Scenario.hours 30)
                      Scenario.session)
    by (vm_compute; reflexivity).
  destruct (proj2 update_session_revives_lapsed Scenario.store "s1"
              Scenario.session (Scenario.hours 30) None None None None
              eq_refl Hlapsed)
    as (Hgone & s' & Hlook & Hbump & _ & Hget).
  split; [exact Hgone|]. exists s'.
  split; [exact Hlook|]. split; [exact Hbump|].
  apply Hget. vm_compute. discriminate.
Defined.

(** C2 as stated fails on a thread that holds an earlier turn: the state
    either team starts from has one message where the outer log has two,
    and the Research team starts with neither the outer documents nor a
    member list. *)
Lemma team_entry_drops_history :
  ∃ research_entry analysis_entry,
    research_entry_state Scenario.earlier_turn = Ok research_entry
    ∧ analysis_entry_state Scenario.earlier_turn = Ok analysis_entry
    ∧ messages research_entry ≠ messages Scenario.earlier_turn
    ∧ documents research_entry ≠ documents Scenario.earlier_turn
    ∧ team_members research_entry = None
    ∧ messages analysis_entry ≠ messages Scenario.earlier_turn.
Proof.
  eexists _, _. split; [reflexivity|]. split; [reflexivity|].
  repeat split; discriminate.
Qed.

(** C2, amended, on the same thread. *)
Lemma team_entry_state_witness :
  research_entry_state Scenario.earlier_turn
  = Ok {| messages := [HumanMessage "Mostly positive." None];
          documents := None; team_members := None; next := None |}
  ∧ analysis_entry_state Scenario.earlier_turn
    = Ok {| messages := [HumanMessage "Mostly positive." None];
            documents := Some [Scenario.comment];
            team_members := Some "Topic, Sentiment";
            next := None |}.
Proof.
  exact (proj2 (proj2 (team_entry_state 25 Scenario.limit_text
                         (Scenario.llm_always "FINISH")
                         (Scenario.llm_always "FINISH")
                         (Scenario.agent_says "links")
                         (Scenario.agent_says "comments")
                         (Scenario.agent_says "topics")
                         (Scenario.agent_says "positive") "" ""))
           Scenario.earlier_turn Scenario.answer eq_refl).
Defined.

(** C5 on a turn whose outer router emits [Bogus]. *)
Lemma unknown_route_never_falls_back_witness :
  (Scenario.stray_turn ∅ "s1" "What do people think?").1
  = [error_message "Error during analysis: 'Bogus'"].
Proof.
  refine (proj1 (proj2 (proj2 (proj2
            (unknown_route_never_falls_back 25 Scenario.limit_text
               (Scenario.llm_always "FINISH") (Scenario.llm_always "FINISH")
               (Scenario.llm_always "Bogus")
               (Scenario.agent_says "links") (Scenario.agent_says "comments")
               (Scenario.agent_says "topics")
               (Scenario.agent_says "positive") "" "" ""))))
            ∅ "s1" "What do people think?" "Bogus" _ _ _).
  - lia.
  - eexists _, _. split; [reflexivity|]. split; reflexivity.
  - rewrite !not_elem_of_cons. repeat split; try discriminate.
    apply not_elem_of_nil.
Defined.

(** C7 at the failing input: a follow-up on a thread that holds two
    messages, every router answering [FINISH] at once.  The turn produces
    the question alone, and the thread ends up with the question twice. *)
Lemma final_pass_appends_question_again_witness :
  ∃ after,
    (Scenario.quiet_turn Scenario.saver "s1" "And the topics?").2 !! "s1"
    = Some after
    ∧ messages after
      = [Scenario.question; Scenario.answer;
         HumanMessage "And the topics?" None;
         HumanMessage "And the topics?" None].
Proof.
  exact (final_pass_appends_question_again 25 Scenario.limit_text
           (Scenario.llm_always "FINISH") (Scenario.llm_always "FINISH")
           (Scenario.llm_always "FINISH")
           (Scenario.agent_says "links") (Scenario.agent_says "comments")
           (Scenario.agent_says "topics") (Scenario.agent_says "positive")
           "" "" "" Scenario.saver "s1" "And the topics?" eq_refl eq_refl).
Defined.

(** The events of that turn: the answer sent to the caller is the question
    itself, the last message of the log after the second run. *)
Example quiet_turn_events :
  (Scenario.quiet_turn Scenario.saver "s1" "And the topics?").1
  = [final_response "And the topics?"
       (Some [("great video", [("type", "comment")])]) "s1"].
Proof. vm_compute. reflexivity. Qed.

(** * Further properties *)

(** ** The session store: lifecycle *)

Section SessionLifecycle.

Context {Graph Retriever Blob : Type}.
Abbreviation Session' := (SessionManager.VideoSession Graph Retriever Blob).
Abbreviation Manager' := (SessionManager.SessionManager Graph Retriever Blob).
Implicit Types (self : Manager') (s : Session') (sid : string).

Lemma delete_session_sessions self sid :
  SessionManager._sessions (SessionManager.delete_session sid self)
  = delete sid (SessionManager._sessions self).
Proof.
  unfold SessionManager.delete_session.
  destruct (SessionManager._sessions self !! sid) eqn:E; simpl; [done|].
  symmetry. by apply delete_id.
Qed.

Lemma cleanup_lookup self now sid :
  SessionManager._sessions
    (SessionManager.cleanup_expired_sessions now self) !! sid
  = match SessionManager._sessions self !! sid with
    | Some s =>
        if bool_decide (now - SessionManager.last_accessed s
                        > SessionManager._session_ttl self)%Z
        then None else Some s
    | None => None
    end.
Proof.
  unfold SessionManager.cleanup_expired_sessions. simpl.
  destruct (SessionManager._sessions self !! sid) as [s|] eqn:Hs.
  - case_bool_decide as Hlate.
    + apply map_lookup_filter_None. right. intros s' Hs' Hkeep.
      simpl in Hkeep. rewrite Hs in Hs'. injection Hs' as <-. done.
    + apply map_lookup_filter_Some. split; [done|]. simpl. done.
  - apply map_lookup_filter_None. by left.
Qed.

(** X1.  A session just created is found again: [create_session] returns
    the fresh identifier, leaves every other entry of the store as it was,
    and a [get_session] on the identifier within the TTL of the creation
    returns the new session, which has no graph, no documents, no
    retriever and no raw data yet; an earlier session stored under the
    same identifier is replaced. *)
Theorem create_then_get self fid now_created now_accessed vid title channel :
  let out := SessionManager.create_session fid now_created now_accessed
               vid title channel self in
  let fresh :=
    SessionManager.mkVideoSession (Graph := Graph) (Retriever := Retriever)
      (Blob := Blob) fid vid title channel now_created now_accessed
      None [] None ∅ in
  out.1 = fid
  ∧ SessionManager._session_ttl out.2 = SessionManager._session_ttl self
  ∧ (∀ sid, sid ≠ fid →
       SessionManager._sessions out.2 !! sid
       = SessionManager._sessions self !! sid)
  ∧ (∀ now now',
       (now - now_accessed ≤ SessionManager._session_ttl self)%Z →
       (SessionManager.get_session now now' fid out.2).1
       = Some (SessionManager.touch now' fresh)).
Proof.
  intros out fresh. subst out fresh. simpl. split; [done|]. split; [done|].
  split.
  - intros sid Hne. by rewrite lookup_insert_ne.
  - intros now now' Hin.
    erewrite get_session_live; [done|simpl; apply lookup_insert_eq|].
    simpl. lia.
Qed.

(** X2.  [delete_session] removes exactly one entry: afterwards a
    [get_session] on the identifier finds nothing, at any time; the other
    entries and the TTL are as before; deleting an identifier the store
    does not hold changes nothing, so deleting twice is deleting once. *)
Theorem delete_session_removes_one self sid :
  (∀ now now',
     SessionManager.get_session now now' sid
       (SessionManager.delete_session sid self)
     = (None, SessionManager.delete_session sid self))
  ∧ (∀ sid', sid' ≠ sid →
       SessionManager._sessions (SessionManager.delete_session sid self)
         !! sid'
       = SessionManager._sessions self !! sid')
  ∧ SessionManager._session_ttl (SessionManager.delete_session sid self)
    = SessionManager._session_ttl self
  ∧ (SessionManager._sessions self !! sid = None →
     SessionManager.delete_session sid self = self)
  ∧ SessionManager.delete_session sid
      (SessionManager.delete_session sid self)
    = SessionManager.delete_session sid self.
Proof.
  assert (Hgone :
    SessionManager._sessions (SessionManager.delete_session sid self) !! sid
    = None) by apply delete_session_lookup.
  split; [|split; [|split; [|split]]].
  - intros now now'. unfold SessionManager.get_session. by rewrite Hgone.
  - intros sid' Hne. rewrite delete_session_sessions.
    by rewrite lookup_delete_ne.
  - unfold SessionManager.delete_session.
    by destruct (SessionManager._sessions self !! sid).
  - intros Hnone. unfold SessionManager.delete_session. by rewrite Hnone.
  - unfold SessionManager.delete_session at 1. by rewrite Hgone.
Qed.

(** X3.  [cleanup_expired_sessions] and [get_session] use the same expiry
    test: the sweep at time [now] keeps, unchanged and without touching
    its last-access time, exactly the sessions that had not lapsed at
    [now], and whatever identifier is read at that same time, the read
    returns the same answer after the sweep as before it. *)
Theorem cleanup_agrees_with_get self now :
  (∀ sid s,
     SessionManager._sessions
       (SessionManager.cleanup_expired_sessions now self) !! sid = Some s
     ↔ SessionManager._sessions self !! sid = Some s
       ∧ ¬ SessionManager.lapsed self now s)
  ∧ SessionManager._session_ttl
      (SessionManager.cleanup_expired_sessions now self)
    = SessionManager._session_ttl self
  ∧ (∀ sid now',
       (SessionManager.get_session now now' sid
          (SessionManager.cleanup_expired_sessions now self)).1
       = (SessionManager.get_session now now' sid self).1).
Proof.
  split; [|split; [done|]].
  - intros sid s. rewrite cleanup_lookup. unfold SessionManager.lapsed.
    destruct (SessionManager._sessions self !! sid) as [s0|].
    + case_bool_decide as Hlate.
      * split; [done|]. intros [[= ->] Hnot]. done.
      * split.
        -- intros [= ->]. done.
        -- intros [[= ->] _]. done.
    + split; [done|]. by intros [? _].
  - intros sid now'. unfold SessionManager.get_session.
    rewrite cleanup_lookup.
    change (SessionManager._session_ttl
              (SessionManager.cleanup_expired_sessions now self))
      with (SessionManager._session_ttl self).
    destruct (SessionManager._sessions self !! sid) as [s|]; [|done].
    case_bool_decide as Hlate; [done|].
    by rewrite bool_decide_eq_false_2.
Qed.

(** X4.  Every operation of the store keeps each key equal to the
    [session_id] of the session it maps to: the empty store has the
    property, and [create_session], [get_session], [update_session],
    [delete_session] and [cleanup_expired_sessions] preserve it. *)
Theorem store_stays_well_keyed :
  (∀ hours, SessionManager.well_keyed
              (SessionManager.init (Graph := Graph) (Retriever := Retriever)
                 (Blob := Blob) hours))
  ∧ (∀ self fid t1 t2 vid title channel,
       SessionManager.well_keyed self →
       SessionManager.well_keyed
         (SessionManager.create_session fid t1 t2 vid title channel self).2)
  ∧ (∀ self sid now now',
       SessionManager.well_keyed self →
       SessionManager.well_keyed
         (SessionManager.get_session now now' sid self).2
       ∧ ∀ r, (SessionManager.get_session now now' sid self).1 = Some r →
              SessionManager.session_id r = sid)
  ∧ (∀ self sid now g d r b,
       SessionManager.well_keyed self →
       SessionManager.well_keyed
         (SessionManager.update_session now sid g d r b self))
  ∧ (∀ self sid,
       SessionManager.well_keyed self →
       SessionManager.well_keyed (SessionManager.delete_session sid self))
  ∧ (∀ self now,
       SessionManager.well_keyed self →
       SessionManager.well_keyed
         (SessionManager.cleanup_expired_sessions now self)).
Proof.
  unfold SessionManager.well_keyed.
  split; [|split; [|split; [|split; [|split]]]].
  - intros hours sid s. simpl. by rewrite lookup_empty.
  - intros self fid t1 t2 vid title channel Hwk sid s. simpl.
    destruct (decide (fid = sid)) as [->|Hne].
    + rewrite lookup_insert_eq. by intros [= <-].
    + rewrite lookup_insert_ne by done. apply Hwk.
  - intros self sid now now' Hwk.
    unfold SessionManager.get_session.
    destruct (SessionManager._sessions self !! sid) as [s0|] eqn:Hs0;
      [|by split].
    case_bool_decide as Hlate; simpl.
    + split; [|done]. intros sid' s. rewrite delete_session_sessions.
      intros [_ Hin]%lookup_delete_Some. by apply Hwk.
    + split.
      * intros sid' s. destruct (decide (sid = sid')) as [->|Hne].
        -- rewrite lookup_insert_eq. intros [= <-]. simpl. by apply Hwk.
        -- rewrite lookup_insert_ne by done. apply Hwk.
      * intros r [= <-]. simpl. by apply Hwk.
  - intros self sid now g d r b Hwk sid' s.
    unfold SessionManager.update_session.
    destruct (SessionManager._sessions self !! sid) as [s0|] eqn:Hs0;
      [|apply Hwk].
    simpl. destruct (decide (sid = sid')) as [->|Hne].
    + rewrite lookup_insert_eq. intros [= <-]. simpl. by apply Hwk.
    + rewrite lookup_insert_ne by done. apply Hwk.
  - intros self sid Hwk sid' s. rewrite delete_session_sessions.
    intros [_ Hin]%lookup_delete_Some. by apply Hwk.
  - intros self now Hwk sid s. rewrite cleanup_lookup.
    destruct (SessionManager._sessions self !! sid) as [s0|] eqn:Hs0;
      [|done].
    case_bool_decide; [done|]. intros [= <-]. by apply Hwk.
Qed.

(** X5.  [list_active_sessions] runs no expiry test: it has one entry per
    session of the store, and in a well-keyed store an identifier is
    listed exactly when the store holds it, however long ago the session
    lapsed. *)
Theorem list_active_sessions_lists_lapsed isoformat self :
  length (SessionManager.list_active_sessions isoformat self)
  = size (SessionManager._sessions self)
  ∧ (SessionManager.well_keyed self →
     ∀ sid,
       sid ∈ map SessionManager.info_session_id
               (SessionManager.list_active_sessions isoformat self)
       ↔ is_Some (SessionManager._sessions self !! sid))
  ∧ (SessionManager.well_keyed self →
     ∀ sid s now,
       SessionManager._sessions self !! sid = Some s →
       SessionManager.lapsed self now s →
       sid ∈ map SessionManager.info_session_id
               (SessionManager.list_active_sessions isoformat self)).
Proof.
  assert (Hlisted : SessionManager.well_keyed self →
            ∀ sid,
              sid ∈ map SessionManager.info_session_id
                      (SessionManager.list_active_sessions isoformat self)
              ↔ is_Some (SessionManager._sessions self !! sid)).
  { intros Hwk sid. unfold SessionManager.list_active_sessions.
    rewrite map_map. simpl. rewrite list_elem_of_fmap. split.
    - intros ([k s] & -> & Hin). apply elem_of_map_to_list in Hin.
      simpl. rewrite (Hwk _ _ Hin). eauto.
    - intros [s Hs]. exists (sid, s). split.
      + simpl. symmetry. by apply Hwk.
      + by apply elem_of_map_to_list. }
  split; [|split; [exact Hlisted|]].
  - unfold SessionManager.list_active_sessions.
    rewrite length_map. apply length_map_to_list.
  - intros Hwk sid s now Hs _. apply Hlisted; eauto.
Qed.

End SessionLifecycle.

(** ** Runs of the hub graphs *)

Section EngineRuns.

Context {St Upd : Type}.
Variable apply : St → Upd → St.
Variable limit_text : string.

(** Every streamed update is what the node of that name returned on some
    state. *)
Lemma events_from_nodes (g : Pregel.StateGraph St Upd) fuel cur s :
  Forall (λ ev : string * Upd,
            ∃ action s', Pregel.nodes g !! ev.1 = Some action
                         ∧ action s' = Ok ev.2)
    (Pregel.events (Pregel.pregel_loop apply limit_text g fuel cur s)).
Proof.
  revert cur s. induction fuel as [|fuel IH]; intros cur s; simpl.
  - destruct (decide (cur = END)); constructor.
  - destruct (decide (cur = END)); [constructor|].
    destruct (Pregel.nodes g !! cur) as [action|] eqn:Hnode; [|constructor].
    destruct (action s) as [u|e] eqn:Hrun; [|constructor].
    destruct (Pregel.next_node g cur (apply s u)) as [dest|e];
      [|constructor].
    simpl. constructor; [|apply IH]. simpl. eauto.
Qed.

(** At the terminal node a run is over when a unit of budget is left. *)
Lemma loop_at_end (g : Pregel.StateGraph St Upd) fuel s :
  Pregel.pregel_loop apply limit_text g (S fuel) END s
  = Pregel.mkRun [] s None.
Proof. reflexivity. Qed.

End EngineRuns.

Section HubRuns.

Context {M : Type}.
Variable limit_text : string.
Implicit Types (g : Pregel.StateGraph (GraphState M) (Update M)).
Implicit Types (s : GraphState M) (members : list string).

Lemma hub_completes_from g router members fuel cur s :
  hub g router members →
  Pregel.outcome (Pregel.pregel_loop apply_update limit_text g fuel cur s)
  = None →
  (cur = router →
   next (Pregel.final
           (Pregel.pregel_loop apply_update limit_text g fuel cur s))
   = Some "FINISH"
   ∧ ∃ ms, Forall (λ m, m ∈ members) ms
           ∧ map fst (Pregel.events
                        (Pregel.pregel_loop apply_update limit_text
                           g fuel cur s))
             = router :: rounds router ms)
  ∧ (cur ∈ members →
     next (Pregel.final
             (Pregel.pregel_loop apply_update limit_text g fuel cur s))
     = Some "FINISH"
     ∧ ∃ ms, Forall (λ m, m ∈ members) ms
             ∧ map fst (Pregel.events
                          (Pregel.pregel_loop apply_update limit_text
                             g fuel cur s))
               = rounds router (cur :: ms)).
Proof.
  intros Hhub.
  pose proof Hhub as (_ & _ & _ & _ & Hr & _ & Hend & Hre).
  revert cur s. induction fuel as [|fuel IH]; intros cur s Hdone.
  - done.
  - simpl in *. destruct (decide (cur = END)) as [->|Hcur].
    { split; [intros Heq; by destruct Hre|]. intros Hin. by destruct Hend. }
    destruct (Pregel.nodes g !! cur) as [action|]; [|done].
    destruct (action s) as [u|e]; [|done].
    destruct (Pregel.next_node g cur (apply_update s u)) as [dest|e]
      eqn:Hnext; [|done].
    simpl in *. split.
    + intros ->. rewrite (hub_router_next _ _ _ _ Hhub) in Hnext.
      destruct (next (apply_update s u)) as [r|] eqn:Hr'; [|done].
      destruct (decide (r ∈ members)) as [Hin|Hout].
      * injection Hnext as <-.
        destruct (IH r _ Hdone) as [_ Hmember].
        destruct (Hmember Hin) as (Hfin & ms & Hms & Htrace).
        split; [exact Hfin|]. exists (r :: ms).
        split; [constructor; [exact Hin|exact Hms]|].
        rewrite Htrace. reflexivity.
      * destruct (decide (r = "FINISH")) as [->|]; [|done].
        injection Hnext as <-. destruct fuel as [|fuel']; [done|].
        rewrite loop_at_end. simpl.
        split; [exact Hr'|]. exists []. split; [constructor|reflexivity].
    + intros Hin. rewrite (hub_member_next _ _ _ _ _ Hhub Hin) in Hnext.
      injection Hnext as <-.
      destruct (IH router _ Hdone) as [Hrouter _].
      destruct (Hrouter eq_refl) as (Hfin & ms & Hms & Htrace).
      split; [exact Hfin|]. exists ms. split; [exact Hms|].
      rewrite Htrace. reflexivity.
Qed.

Lemma hub_completes_in_rounds g router members :
  hub g router members →
  completes_in_rounds limit_text g router members.
Proof.
  intros Hhub fuel s r Hdone. subst r.
  by apply (hub_completes_from g router members fuel router s Hhub Hdone).
Qed.


End HubRuns.

Section HubSteps.

Context {M : Type}.
Variable limit_text : string.
Implicit Types (g : Pregel.StateGraph (GraphState M) (Update M)).

(** The router answers [FINISH]: the run is that one step. *)
Lemma hub_finish_at_once g router members fuel s action u :
  hub g router members →
  (1 < fuel)%nat →
  Pregel.nodes g !! router = Some action →
  action s = Ok u →
  u_next u = Some "FINISH" →
  Pregel.pregel_loop apply_update limit_text g fuel router s
  = Pregel.mkRun [(router, u)] (apply_update s u) None.
Proof.
  intros Hhub Hpos Hnode Hrun Hnext.
  assert (Hne : router ≠ END) by apply Hhub.
  assert (Hfin : "FINISH" ∉ members) by apply Hhub.
  destruct fuel as [|[|fuel]]; [lia|lia|]. simpl.
  destruct (decide (router = END)); [done|].
  rewrite Hnode, Hrun, (hub_router_next _ _ _ _ Hhub). simpl.
  rewrite Hnext. simpl.
  by destruct (decide ("FINISH" ∈ members)).
Qed.

(** The messages a list of streamed updates appends, when every update of
    a member holds one message under the member's name and every other
    update holds none. *)
Lemma attributions_of_events (members : list string)
    (evs : list (string * Update M)) :
  Forall (λ ev : string * Update M,
            (ev.1 ∈ members
             ∧ ∃ text, u_messages ev.2
                       = Some [HumanMessage text (Some ev.1)])
            ∨ ((ev.1 ∉ members) ∧ u_messages ev.2 = None)) evs →
  attributions (map snd evs)
  = map Some (filter (λ n, n ∈ members) (map fst evs)).
Proof.
  unfold attributions. induction 1 as [|[n u] evs Hev _ IH]; [done|].
  simpl in *. rewrite map_app, IH. unfold appended.
  destruct Hev as [[Hin [text Hmsg]]|[Hout Hmsg]]; rewrite Hmsg; simpl.
  - by rewrite filter_cons_True.
  - by rewrite filter_cons_False.
Qed.

End HubSteps.

(** ** Runs of the three graphs *)

Section GraphRuns.

Variable recursion_limit : nat.
Variable recursion_text : string.
Variable research_llm analysis_llm super_llm
  : string → list string → list Message → result (list ToolCall).
Variable search_agent research_agent
  : ResearchTeamState → result AgentResult.
Variable topic_agent sentiment_agent
  : SentimentState → result AgentResult.
Variable RESEARCH_SUPERVISOR_PROMPT ANALYSIS_SUPERVISOR_PROMPT
  SUPER_SUPERVISOR_PROMPT : string.

Abbreviation research_graph :=
  (build_research_graph research_llm search_agent research_agent
     RESEARCH_SUPERVISOR_PROMPT).
Abbreviation analysis_graph :=
  (build_analysis_graph analysis_llm topic_agent sentiment_agent
     ANALYSIS_SUPERVISOR_PROMPT).
Abbreviation main_graph :=
  (build_main_graph recursion_limit recursion_text
     research_llm analysis_llm super_llm
     search_agent research_agent topic_agent sentiment_agent
     RESEARCH_SUPERVISOR_PROMPT ANALYSIS_SUPERVISOR_PROMPT
     SUPER_SUPERVISOR_PROMPT).
Abbreviation research_team :=
  (research_team_node recursion_limit recursion_text
     research_llm search_agent research_agent RESEARCH_SUPERVISOR_PROMPT).
Abbreviation analysis_team :=
  (get_messages_and_documents recursion_limit recursion_text
     analysis_llm topic_agent sentiment_agent ANALYSIS_SUPERVISOR_PROMPT).
Abbreviation turn :=
  (analyze_video_stream recursion_limit recursion_text
     research_llm analysis_llm super_llm
     search_agent research_agent topic_agent sentiment_agent
     RESEARCH_SUPERVISOR_PROMPT ANALYSIS_SUPERVISOR_PROMPT
     SUPER_SUPERVISOR_PROMPT).
Abbreviation thread_run :=
  (run_thread recursion_limit recursion_text
     research_llm analysis_llm super_llm
     search_agent research_agent topic_agent sentiment_agent
     RESEARCH_SUPERVISOR_PROMPT ANALYSIS_SUPERVISOR_PROMPT
     SUPER_SUPERVISOR_PROMPT).

Lemma research_shape :
  hub research_graph "ResearchSupervisor" ["VideoSearch"; "CommentFinder"].
Proof.
  exact (research_hub research_llm analysis_llm super_llm search_agent
           research_agent RESEARCH_SUPERVISOR_PROMPT
           SUPER_SUPERVISOR_PROMPT).
Qed.

Lemma analysis_shape :
  hub analysis_graph "AnalysisSupervisor" ["Topic"; "Sentiment"].
Proof.
  exact (analysis_hub research_llm analysis_llm super_llm topic_agent
           sentiment_agent ANALYSIS_SUPERVISOR_PROMPT
           SUPER_SUPERVISOR_PROMPT).
Qed.

Lemma main_shape :
  hub main_graph "SuperSupervisor" ["Research team"; "Analysis team"].
Proof. apply main_hub. Qed.

Lemma agent_node_messages {M} (s : GraphState M) agent name u :
  agent_node s agent name = Ok u →
  ∃ text, u_messages u = Some [HumanMessage text (Some name)].
Proof.
  unfold agent_node. destruct (agent s) as [r|e]; simpl; [|done].
  intros [= <-]. simpl. eauto.
Qed.

Lemma agent_node_with_docs_messages {M} (s : GraphState M) agent name u :
  agent_node_with_docs s agent name = Ok u →
  ∃ text, u_messages u = Some [HumanMessage text (Some name)].
Proof.
  unfold agent_node_with_docs. destruct (agent s) as [r|e]; simpl; [|done].
  intros [= <-]. simpl. eauto.
Qed.

Ltac node_cases Hshape Hnode :=
  let Hall := fresh "Hall" in
  let Hin := fresh "Hin" in
  pose proof Hshape as (_ & _ & _ & Hall & _);
  match type of Hnode with
  | _ !! ?n = Some _ =>
      destruct (Hall n (ex_intro _ _ Hnode)) as [->|Hin]; clear Hall;
      [|repeat (apply elem_of_cons in Hin as [->|Hin]);
        [..|by apply elem_of_nil in Hin]]
  end.

Lemma research_events fuel cur s :
  Forall (λ ev : string * Update (list string),
            (ev.1 ∈ ["VideoSearch"; "CommentFinder"]
             ∧ ∃ text, u_messages ev.2
                       = Some [HumanMessage text (Some ev.1)])
            ∨ ((ev.1 ∉ ["VideoSearch"; "CommentFinder"])
               ∧ u_messages ev.2 = None))
    (Pregel.events
       (Pregel.pregel_loop apply_update recursion_text research_graph
          fuel cur s)).
Proof.
  eapply Forall_impl; [apply events_from_nodes|].
  intros [n u] (action & s' & Hnode & Hrun). simpl in *.
  node_cases research_shape Hnode.
  - right. split; [set_solver|].
    change (Pregel.nodes research_graph !! "ResearchSupervisor")
      with (Some (create_team_supervisor (M := list string) research_llm
                    RESEARCH_SUPERVISOR_PROMPT
                    ["VideoSearch"; "CommentFinder"])) in Hnode.
    injection Hnode as <-. by apply supervisor_update in Hrun as [? _].
  - left. split; [set_solver|].
    change (Pregel.nodes research_graph !! "VideoSearch")
      with (Some (λ state : ResearchTeamState,
                    agent_node state search_agent "VideoSearch")) in Hnode.
    injection Hnode as <-. by apply agent_node_messages in Hrun.
  - left. split; [set_solver|].
    change (Pregel.nodes research_graph !! "CommentFinder")
      with (Some (λ state : ResearchTeamState,
                    agent_node_with_docs state research_agent
                      "CommentFinder")) in Hnode.
    injection Hnode as <-. by apply agent_node_with_docs_messages in Hrun.
Qed.

Lemma analysis_events fuel cur s :
  Forall (λ ev : string * Update string,
            (ev.1 ∈ ["Topic"; "Sentiment"]
             ∧ ∃ text, u_messages ev.2
                       = Some [HumanMessage text (Some ev.1)])
            ∨ ((ev.1 ∉ ["Topic"; "Sentiment"])
               ∧ u_messages ev.2 = None))
    (Pregel.events
       (Pregel.pregel_loop apply_update recursion_text analysis_graph
          fuel cur s)).
Proof.
  eapply Forall_impl; [apply events_from_nodes|].
  intros [n u] (action & s' & Hnode & Hrun). simpl in *.
  node_cases analysis_shape Hnode.
  - right. split; [set_solver|].
    change (Pregel.nodes analysis_graph !! "AnalysisSupervisor")
      with (Some (create_team_supervisor (M := string) analysis_llm
                    ANALYSIS_SUPERVISOR_PROMPT
                    ["Topic"; "Sentiment"])) in Hnode.
    injection Hnode as <-. by apply supervisor_update in Hrun as [? _].
  - left. split; [set_solver|].
    change (Pregel.nodes analysis_graph !! "Topic")
      with (Some (λ state : SentimentState,
                    agent_node state topic_agent "Topic")) in Hnode.
    injection Hnode as <-. by apply agent_node_messages in Hrun.
  - left. split; [set_solver|].
    change (Pregel.nodes analysis_graph !! "Sentiment")
      with (Some (λ state : SentimentState,
                    agent_node state sentiment_agent "Sentiment")) in Hnode.
    injection Hnode as <-. by apply agent_node_messages in Hrun.
Qed.

(** X6.  In a team run the log grows by exactly one message per member
    step and by none per router step, and each of these messages carries
    the name of the member that produced it, in the order the members
    ran: this holds for every run of the Research graph and of the
    Analysis graph, completed or not. *)
Theorem team_log_follows_trace :
  (∀ fuel cur s,
     let r := Pregel.pregel_loop apply_update recursion_text research_graph
                fuel cur s in
     messages (Pregel.final r)
     = messages s ++ flat_map appended (map snd (Pregel.events r))
     ∧ attributions (map snd (Pregel.events r))
       = map Some (filter (λ n, n ∈ ["VideoSearch"; "CommentFinder"])
                     (map fst (Pregel.events r))))
  ∧ (∀ fuel cur s,
       let r := Pregel.pregel_loop apply_update recursion_text
                  analysis_graph fuel cur s in
       messages (Pregel.final r)
       = messages s ++ flat_map appended (map snd (Pregel.events r))
       ∧ attributions (map snd (Pregel.events r))
         = map Some (filter (λ n, n ∈ ["Topic"; "Sentiment"])
                       (map fst (Pregel.events r)))).
Proof.
  split; intros fuel cur s r; subst r; (split; [apply run_messages|]).
  - apply attributions_of_events, research_events.
  - apply attributions_of_events, analysis_events.
Qed.

(** X7.  At each of the three levels a run that starts at the router and
    ends without an exception is the router, then zero or more rounds of
    one member followed by the router; so the router decides once more
    than members run, and the state the run ends with has [FINISH] in
    [next]. *)
Theorem completed_runs_alternate :
  completes_in_rounds recursion_text research_graph
    "ResearchSupervisor" ["VideoSearch"; "CommentFinder"]
  ∧ completes_in_rounds recursion_text analysis_graph
      "AnalysisSupervisor" ["Topic"; "Sentiment"]
  ∧ completes_in_rounds recursion_text main_graph
      "SuperSupervisor" ["Research team"; "Analysis team"].
Proof.
  split; [|split]; apply hub_completes_in_rounds.
  - apply research_shape.
  - apply analysis_shape.
  - apply main_shape.
Qed.


Lemma research_team_exit state u :
  research_team state = Ok u →
  ∃ response : ResearchTeamState, join_graph response = Ok u.
Proof.
  unfold research_team_node.
  destruct (get_last_message state) as [msg|e]; simpl; [|done].
  match goal with
  | |- context [research_chain ?x1 ?x2 ?x3 ?x4 ?x5 ?x6 msg] =>
      destruct (research_chain x1 x2 x3 x4 x5 x6 msg) as [response|err]
  end; simpl; [|done].
  eauto.
Qed.

Lemma analysis_team_exit state u :
  analysis_team state = Ok u →
  ∃ response : SentimentState, join_graph response = Ok u.
Proof.
  unfold get_messages_and_documents.
  destruct (last_item (messages state)) as [m|e]; simpl; [|done].
  match goal with
  | |- context [analysis_chain ?x1 ?x2 ?x3 ?x4 ?x5 ?x6 ?x7] =>
      destruct (analysis_chain x1 x2 x3 x4 x5 x6 x7) as [response|err]
  end; simpl; [|done].
  eauto.
Qed.

Lemma main_events fuel cur s :
  Forall (λ ev : string * Update Empty_set,
            (ev.1 ∈ ["Research team"; "Analysis team"]
             ∧ ∃ m, u_messages ev.2 = Some [m])
            ∨ ((ev.1 ∉ ["Research team"; "Analysis team"])
               ∧ u_messages ev.2 = None))
    (Pregel.events
       (Pregel.pregel_loop apply_update recursion_text main_graph
          fuel cur s)).
Proof.
  eapply Forall_impl; [apply events_from_nodes|].
  intros [n u] (action & s' & Hnode & Hrun). simpl in *.
  node_cases main_shape Hnode.
  - right. split; [set_solver|].
    change (Pregel.nodes main_graph !! "SuperSupervisor")
      with (Some (create_team_supervisor (M := Empty_set) super_llm
                    SUPER_SUPERVISOR_PROMPT
                    ["Research team"; "Analysis team"])) in Hnode.
    injection Hnode as <-. by apply supervisor_update in Hrun as [? _].
  - left. split; [set_solver|].
    change (Pregel.nodes main_graph !! "Research team")
      with (Some research_team) in Hnode.
    injection Hnode as <-.
    apply research_team_exit in Hrun as [response Hexit].
    apply join_graph_inv in Hexit as (m & _ & Hmsg & _). eauto.
  - left. split; [set_solver|].
    change (Pregel.nodes main_graph !! "Analysis team")
      with (Some analysis_team) in Hnode.
    injection Hnode as <-.
    apply analysis_team_exit in Hrun as [response Hexit].
    apply join_graph_inv in Hexit as (m & _ & Hmsg & _). eauto.
Qed.

(** X9.  The streaming pass reports the log as it grows: the agent
    messages sent to the caller are exactly the messages appended to the
    outer log by the steps the loop consumed, each once, in order, with
    the speaker's name as agent; there is one per team step, labelled with
    that team's node, and none for a router step or for the question.  The
    loop consumes the steps before the first update that wrote nothing,
    and the whole run when it ends without an exception of its own; the
    only exception of its own is the [TypeError] of the membership test
    on [None]. *)
Theorem stream_reports_appended_messages session fuel cur s :
  let evs := Pregel.events
               (Pregel.pregel_loop apply_update recursion_text main_graph
                  fuel cur s) in
  let sent := (stream_progress session evs).1 in
  map event_message sent
  = map Some (flat_map appended (map snd (before_none evs)))
  ∧ map event_node sent
    = map Some (filter (λ n, n ∈ ["Research team"; "Analysis team"])
                  (map fst (before_none evs)))
  ∧ ((stream_progress session evs).2 = None → before_none evs = evs)
  ∧ (∀ e, (stream_progress session evs).2 = Some e →
          e = TypeError none_not_iterable).
Proof.
  intros evs sent. subst sent evs.
  match goal with
  | |- ?A ∧ ?B ∧ _ =>
      cut (A ∧ B);
      [intros [HA HB]; split; [exact HA|];
       split; [exact HB|]; split; [apply stream_clean|]|]
  end.
  { intros e. rewrite stream_stopped.
    match goal with |- context [forallb ?f ?l] => destruct (forallb f l) end;
      congruence. }
  induction (main_events fuel cur s) as [|[n u] evs Hev _ [IHm IHn]];
    [done|].
  simpl. unfold progress_of. simpl.
  destruct (writes_nothing u) eqn:Hnone; simpl; [done|].
  rewrite !map_app, IHm, IHn. unfold appended.
  destruct Hev as [[Hin [m Hmsg]]|[Hout Hmsg]]; simpl in *;
    rewrite Hmsg; simpl.
  - rewrite filter_cons_True by done. by destruct m.
  - by rewrite filter_cons_False.
Qed.

(** The log of a thread after a run on it starts with the log before and
    the input. *)
Lemma thread_log_after saver session question :
  messages (Pregel.final (thread_run saver session
                            (initial_state question)).1)
  = messages (default empty_state (saver !! session))
    ++ [HumanMessage question None]
    ++ flat_map appended
         (map snd (Pregel.events
                     (thread_run saver session (initial_state question)).1)).
Proof.
  rewrite thread_run_unfold. cbn [fst]. rewrite run_messages.
  cbn [apply_update messages initial_state u_messages default].
  by rewrite <- app_assoc.
Qed.

(** The four ways a turn can go. *)
Lemma turn_cases saver session question :
  let pass1 := thread_run saver session (initial_state question) in
  let pass2 := thread_run pass1.2 session (initial_state question) in
  let streamed := stream_progress session (Pregel.events pass1.1) in
  (∃ e, streamed.2 = Some e
        ∧ turn saver session question
          = (streamed.1 ++ [report e],
             interrupted_thread saver session (initial_state question)
               (before_none (Pregel.events pass1.1))))
  ∨ (∃ e, streamed.2 = None
          ∧ Pregel.outcome pass1.1 = Some e
          ∧ turn saver session question
            = (streamed.1 ++ [report e], pass1.2))
  ∨ (∃ e, streamed.2 = None
          ∧ Pregel.outcome pass1.1 = None
          ∧ Pregel.outcome pass2.1 = Some e
          ∧ turn saver session question
            = (streamed.1 ++ [report e], pass2.2))
  ∨ (∃ m, streamed.2 = None
          ∧ Pregel.outcome pass1.1 = None
          ∧ Pregel.outcome pass2.1 = None
          ∧ last (messages (Pregel.final pass2.1)) = Some m
          ∧ turn saver session question
            = (streamed.1
                 ++ [format_final_response (content m)
                       (default [] (documents (Pregel.final pass2.1)))
                       session],
               pass2.2)).
Proof.
  intros pass1 pass2 streamed.
  pose proof (thread_log_after pass1.2 session question) as Hlog.
  fold pass2 in Hlog.
  unfold analyze_video_stream.
  fold pass1. destruct pass1 as [run1 saver1] eqn:Hpass1.
  cbn [fst snd] in *.
  fold streamed. destruct streamed as [sent stopped] eqn:Hstreamed.
  cbn [fst snd] in *.
  destruct stopped as [e|]; [left; eauto|]. right.
  destruct (Pregel.outcome run1) as [e|] eqn:Hout1; [left; eauto|].
  right. fold pass2. destruct pass2 as [run2 saver2] eqn:Hpass2.
  cbn [fst snd] in *.
  destruct (Pregel.outcome run2) as [e|] eqn:Hout2; [left; eauto|].
  right. destruct (last (messages (Pregel.final run2))) as [m|] eqn:Hlast.
  - exists m. done.
  - apply last_None in Hlast. rewrite Hlast in Hlog.
    by destruct (messages (default empty_state (saver1 !! session))).
Qed.

(** X10.  Every turn sends the progress of the streaming pass followed by
    exactly one closing event, and nothing after it.  The closing event is
    the report of the first thing that failed: the loop over the stream
    (on an update that wrote nothing), the streaming run, or the run that
    fetches the final state; when nothing failed it is the final response
    with the text of the last message and the documents of that last run.
    The branch that would send [No response generated] is never taken,
    since the log holds at least the question. *)
Theorem turn_ends_with_one_closing_event saver session question :
  let pass1 := thread_run saver session (initial_state question) in
  let pass2 := thread_run pass1.2 session (initial_state question) in
  let streamed := stream_progress session (Pregel.events pass1.1) in
  ∃ closing,
    (turn saver session question).1 = streamed.1 ++ [closing]
    ∧ Forall (λ e, ¬ is_terminal e) streamed.1
    ∧ is_terminal closing
    ∧ closing ≠ format_error_message "No response generated"
    ∧ match streamed.2, Pregel.outcome pass1.1, Pregel.outcome pass2.1 with
      | Some e, _, _ | None, Some e, _ | None, None, Some e =>
          closing = report e
      | None, None, None =>
          ∃ m, last (messages (Pregel.final pass2.1)) = Some m
               ∧ closing
                 = format_final_response (content m)
                     (default [] (documents (Pregel.final pass2.1)))
                     session
      end.
Proof.
  intros pass1 pass2 streamed.
  destruct (turn_cases saver session question)
    as [(e & Hs & Hturn)
       |[(e & Hs & H1 & Hturn)
        |[(e & Hs & H1 & H2 & Hturn)|(m & Hs & H1 & H2 & Hlast & Hturn)]]];
    fold pass1 pass2 streamed in Hs, Hturn;
    try fold pass1 in H1; try fold pass1 pass2 in H2;
    rewrite Hturn; cbn [fst]; eexists; (split; [reflexivity|]);
    (split; [apply stream_not_terminal|]);
    (split; [done|]); (split; [done|]).
  - by rewrite Hs.
  - by rewrite Hs, H1.
  - by rewrite Hs, H1, H2.
  - rewrite Hs, H1, H2. fold pass1 pass2 in Hlast. eauto.
Qed.

(** X11.  When the loop over the stream and both runs of a turn complete,
    the answer sent is the text of the last message of the log the thread
    holds after the turn, and the documents sent are the thread's document
    set, each as its content and metadata, in order; the documents are
    left out of the event when the set is empty or was never written. *)
Theorem answer_is_last_message_of_thread saver session question :
  let pass1 := thread_run saver session (initial_state question) in
  let pass2 := thread_run pass1.2 session (initial_state question) in
  let streamed := stream_progress session (Pregel.events pass1.1) in
  streamed.2 = None →
  Pregel.outcome pass1.1 = None →
  Pregel.outcome pass2.1 = None →
  ∃ after m,
    (turn saver session question).2 !! session = Some after
    ∧ last (messages after) = Some m
    ∧ (turn saver session question).1
      = streamed.1
        ++ [final_response (content m)
              (match documents after with
               | Some (d :: ds) =>
                   Some (map (λ d, (page_content d, metadata d)) (d :: ds))
               | _ => None
               end)
              session].
Proof.
  intros pass1 pass2 streamed Hclean Hdone1 Hdone2.
  destruct (turn_cases saver session question)
    as [(e & Hfail & _)
       |[(e & _ & Hfail & _)
        |[(e & _ & _ & Hfail & _)|(m & _ & _ & _ & Hlast & Hturn)]]].
  - fold pass1 streamed in Hfail. congruence.
  - fold pass1 in Hfail. congruence.
  - fold pass1 pass2 in Hfail. congruence.
  - fold pass1 pass2 streamed in Hlast, Hturn. rewrite Hturn. cbn [fst snd].
    exists (Pregel.final pass2.1), m. split; [|split; [done|]].
    + subst pass2. rewrite thread_run_unfold. cbn [fst snd].
      apply lookup_insert_eq.
    + unfold format_final_response.
      destruct (documents (Pregel.final pass2.1)) as [[|d ds]|]; done.
Qed.

(** X12.  Under a budget of two steps or more, a team whose router
    answers [FINISH] on its first decision hands the outer log an
    unattributed copy of the outer log's own last message and leaves the
    outer document set as it was: the Research team comes back with an
    empty document list, which the exit drops, and the Analysis team comes
    back with the documents it was entered with. *)
Theorem team_finishing_at_once_echoes (state : SuperState) m :
  (1 < recursion_limit)%nat →
  last (messages state) = Some m →
  (∀ entry,
     research_entry_state state = Ok entry →
     router_emits research_graph "ResearchSupervisor" entry "FINISH" →
     research_team state
     = Ok {| u_messages := Some [HumanMessage (content m) None];
             u_documents := None; u_team_members := None;
             u_next := None |})
  ∧ (∀ entry,
       analysis_entry_state state = Ok entry →
       router_emits analysis_graph "AnalysisSupervisor" entry "FINISH" →
       ∃ u, analysis_team state = Ok u
            ∧ u_messages u = Some [HumanMessage (content m) None]
            ∧ documents (apply_update state u) = documents state).
Proof.
  intros Hpos Hlast. split.
  - intros entry Hentry (action & u & Hnode & Hrun & Hnext).
    rewrite research_team_unfold, Hentry. simpl.
    rewrite (hub_finish_at_once recursion_text _ _ _ _ _ _ _
               research_shape Hpos Hnode Hrun Hnext).
    change (Pregel.nodes research_graph !! "ResearchSupervisor")
      with (Some (create_team_supervisor (M := list string) research_llm
                    RESEARCH_SUPERVISOR_PROMPT
                    ["VideoSearch"; "CommentFinder"])) in Hnode.
    injection Hnode as <-.
    apply supervisor_update in Hrun as [Hmsgs Hdocs].
    unfold research_entry_state, get_last_message, last_item in Hentry.
    rewrite Hlast in Hentry. simpl in Hentry. injection Hentry as <-.
    destruct u as [um ud ut un]. simpl in Hmsgs, Hdocs, Hnext.
    subst um ud un. reflexivity.
  - intros entry Hentry (action & u & Hnode & Hrun & Hnext).
    rewrite analysis_team_unfold, Hentry. simpl.
    rewrite (hub_finish_at_once recursion_text _ _ _ _ _ _ _
               analysis_shape Hpos Hnode Hrun Hnext).
    change (Pregel.nodes analysis_graph !! "AnalysisSupervisor")
      with (Some (create_team_supervisor (M := string) analysis_llm
                    ANALYSIS_SUPERVISOR_PROMPT
                    ["Topic"; "Sentiment"])) in Hnode.
    injection Hnode as <-.
    apply supervisor_update in Hrun as [Hmsgs Hdocs].
    unfold analysis_entry_state, last_item in Hentry.
    rewrite Hlast in Hentry. simpl in Hentry. injection Hentry as <-.
    destruct u as [um ud ut un]. simpl in Hmsgs, Hdocs, Hnext.
    subst um ud un. unfold Pregel.to_result. simpl.
    destruct (documents state) as [[|d ds]|]; simpl;
      (eexists; split; [reflexivity|]; split; reflexivity).
Qed.

(** ** The team boundary *)

Abbreviation research_loop :=
  (Pregel.pregel_loop apply_update recursion_text research_graph
     recursion_limit "ResearchSupervisor").
Abbreviation analysis_loop :=
  (Pregel.pregel_loop apply_update recursion_text analysis_graph
     recursion_limit "AnalysisSupervisor").

Lemma research_entry_log (state : SuperState) entry :
  research_entry_state state = Ok entry →
  ∃ m0, last (messages state) = Some m0
        ∧ messages entry = [HumanMessage (content m0) None].
Proof.
  unfold research_entry_state, get_last_message, last_item.
  destruct (last (messages state)) as [m0|]; simpl; [|done].
  intros [= <-]. by exists m0.
Qed.

Lemma analysis_entry_log (state : SuperState) entry :
  analysis_entry_state state = Ok entry →
  ∃ m0, last (messages state) = Some m0
        ∧ messages entry = [HumanMessage (content m0) None].
Proof.
  unfold analysis_entry_state, last_item.
  destruct (last (messages state)) as [m0|]; simpl; [|done].
  intros [= <-]. by exists m0.
Qed.

(** The last message of a log that starts with [m0]. *)
Lemma last_after_entry (m0 : Message) produced :
  last (m0 :: produced) = Some (default m0 (last produced)).
Proof. rewrite last_cons. by destruct (last produced). Qed.

(** What [join_graph] does to the outer state. *)
Lemma join_graph_effect {M} (response : GraphState M) (outer : SuperState) u :
  join_graph response = Ok u →
  ∃ m, last (messages response) = Some m
       ∧ messages (apply_update outer u) = messages outer ++ [m]
       ∧ documents (apply_update outer u)
         = if truthy (default [] (documents response))
           then documents response else documents outer.
Proof.
  intros (m & Hlast & Hmsgs & Hdocs)%join_graph_inv.
  exists m. split; [done|]. simpl. rewrite Hmsgs, Hdocs. split; [done|].
  destruct (truthy (default [] (documents response))) eqn:Htruthy; [|done].
  by destruct (documents response).
Qed.

(** The exit of the Research team, once its run is known. *)
Lemma research_team_of_run (outer : SuperState) entry :
  research_entry_state outer = Ok entry →
  Pregel.outcome (research_loop entry) = None →
  ∃ m0 u,
    last (messages outer) = Some m0
    ∧ research_team outer = Ok u
    ∧ messages (apply_update outer u)
      = messages outer
        ++ [default (HumanMessage (content m0) None)
              (last (flat_map appended
                       (map snd (Pregel.events (research_loop entry)))))]
    ∧ documents (apply_update outer u)
      = if truthy (default [] (documents (Pregel.final (research_loop entry))))
        then documents (Pregel.final (research_loop entry))
        else documents outer.
Proof.
  intros Hentry Hdone.
  destruct (research_entry_log _ _ Hentry) as (m0 & Hlast0 & Hlog0).
  exists m0. rewrite research_team_unfold, Hentry. simpl.
  unfold Pregel.to_result. rewrite Hdone. simpl.
  pose proof (run_messages recursion_text research_graph recursion_limit
                "ResearchSupervisor" entry) as Hlog.
  rewrite Hlog0 in Hlog.
  match goal with
  | |- ∃ u, _ ∧ join_graph ?response = Ok u ∧ _ =>
      destruct (join_graph_total response) as [u Hu];
      [by simpl; rewrite Hlog|];
      exists u; split; [done|]; split; [exact Hu|];
      destruct (join_graph_effect response outer u Hu)
        as (m & Hlast & Hmsgs & Hdocs)
  end.
  simpl in Hlast, Hdocs. rewrite Hlog in Hlast. simpl in Hlast.
  rewrite last_after_entry in Hlast. injection Hlast as <-.
  split; [exact Hmsgs|]. rewrite Hdocs.
  by destruct (documents (Pregel.final (research_loop entry)))
    as [[|d ds]|].
Qed.

(** The exit of the Analysis team, once its run is known. *)
Lemma analysis_team_of_run (outer : SuperState) entry :
  analysis_entry_state outer = Ok entry →
  Pregel.outcome (analysis_loop entry) = None →
  ∃ m0 u,
    last (messages outer) = Some m0
    ∧ analysis_team outer = Ok u
    ∧ messages (apply_update outer u)
      = messages outer
        ++ [default (HumanMessage (content m0) None)
              (last (flat_map appended
                       (map snd (Pregel.events (analysis_loop entry)))))]
    ∧ documents (apply_update outer u)
      = if truthy (default [] (documents (Pregel.final (analysis_loop entry))))
        then documents (Pregel.final (analysis_loop entry))
        else documents outer.
Proof.
  intros Hentry Hdone.
  destruct (analysis_entry_log _ _ Hentry) as (m0 & Hlast0 & Hlog0).
  exists m0. rewrite analysis_team_unfold, Hentry. simpl.
  unfold Pregel.to_result. rewrite Hdone. simpl.
  pose proof (run_messages recursion_text analysis_graph recursion_limit
                "AnalysisSupervisor" entry) as Hlog.
  rewrite Hlog0 in Hlog.
  match goal with
  | |- ∃ u, _ ∧ join_graph ?response = Ok u ∧ _ =>
      destruct (join_graph_total response) as [u Hu];
      [by rewrite Hlog|];
      exists u; split; [done|]; split; [exact Hu|];
      destruct (join_graph_effect response outer u Hu)
        as (m & Hlast & Hmsgs & Hdocs)
  end.
  rewrite Hlog in Hlast. simpl in Hlast.
  rewrite last_after_entry in Hlast. injection Hlast as <-.
  split; [exact Hmsgs|exact Hdocs].
Qed.

(** A team node that returns ran its graph to the end. *)
Lemma research_team_completed (outer : SuperState) u :
  research_team outer = Ok u →
  ∃ entry, research_entry_state outer = Ok entry
           ∧ Pregel.outcome (research_loop entry) = None.
Proof.
  rewrite research_team_unfold.
  destruct (research_entry_state outer) as [entry|e]; simpl; [|done].
  unfold Pregel.to_result.
  destruct (Pregel.outcome (research_loop entry)) eqn:Hout; simpl; [done|].
  eauto.
Qed.

Lemma analysis_team_completed (outer : SuperState) u :
  analysis_team outer = Ok u →
  ∃ entry, analysis_entry_state outer = Ok entry
           ∧ Pregel.outcome (analysis_loop entry) = None.
Proof.
  rewrite analysis_team_unfold.
  destruct (analysis_entry_state outer) as [entry|e]; simpl; [|done].
  unfold Pregel.to_result.
  destruct (Pregel.outcome (analysis_loop entry)) eqn:Hout; simpl; [done|].
  eauto.
Qed.

(** No node of the outer graph writes an empty document list. *)
Lemma main_node_documents n action (s : SuperState) u :
  Pregel.nodes main_graph !! n = Some action →
  action s = Ok u →
  u_documents u = None ∨ ∃ d, u_documents u = Some d ∧ d ≠ [].
Proof.
  intros Hnode Hrun.
  assert (Hexit : ∀ M (response : GraphState M),
            join_graph response = Ok u →
            u_documents u = None ∨ ∃ d, u_documents u = Some d ∧ d ≠ []).
  { intros M response (m & _ & _ & Hdocs)%join_graph_inv. rewrite Hdocs.
    destruct (documents response) as [[|d ds]|]; simpl; eauto. }
  node_cases main_shape Hnode.
  - change (Pregel.nodes main_graph !! "SuperSupervisor")
      with (Some (create_team_supervisor (M := Empty_set) super_llm
                    SUPER_SUPERVISOR_PROMPT
                    ["Research team"; "Analysis team"])) in Hnode.
    injection Hnode as <-. left.
    by apply supervisor_update in Hrun as [_ ?].
  - change (Pregel.nodes main_graph !! "Research team")
      with (Some research_team) in Hnode.
    injection Hnode as <-.
    apply research_team_exit in Hrun as [response Hexit']. eauto.
  - change (Pregel.nodes main_graph !! "Analysis team")
      with (Some analysis_team) in Hnode.
    injection Hnode as <-.
    apply analysis_team_exit in Hrun as [response Hexit']. eauto.
Qed.

(** C1.  At every exit of a team node of the outer graph, the document
    set of the team's completed run replaces the outer document set when
    it is non-empty and leaves the outer document set exactly as it was
    when it is empty or missing; every completed team run does lead to
    such an exit.  In particular, after a Research exit whose run produced
    the non-empty set [d], any steps that write no documents (router
    steps, the input of a later turn), and an Analysis exit whose run
    produced an empty set, the outer document set is [d].  In every run of
    the outer graph, a document set that is non-empty at the start is
    non-empty at the end. *)
Theorem team_exit_document_rule :
  (∀ (outer : SuperState) entry,
     research_entry_state outer = Ok entry →
     Pregel.outcome (research_loop entry) = None →
     let inner := Pregel.final (research_loop entry) in
     ∃ u, research_team outer = Ok u
          ∧ documents (apply_update outer u)
            = if truthy (default [] (documents inner))
              then documents inner else documents outer)
  ∧ (∀ (outer : SuperState) entry,
       analysis_entry_state outer = Ok entry →
       Pregel.outcome (analysis_loop entry) = None →
       let inner := Pregel.final (analysis_loop entry) in
       ∃ u, analysis_team outer = Ok u
            ∧ documents (apply_update outer u)
              = if truthy (default [] (documents inner))
                then documents inner else documents outer)
  ∧ (∀ (outer : SuperState) entry1 u1 d between entry2 u2,
       research_entry_state outer = Ok entry1 →
       Pregel.outcome (research_loop entry1) = None →
       documents (Pregel.final (research_loop entry1)) = Some d →
       d ≠ [] →
       research_team outer = Ok u1 →
       Forall (λ u, u_documents u = None) between →
       let later := foldl apply_update (apply_update outer u1) between in
       analysis_entry_state later = Ok entry2 →
       Pregel.outcome (analysis_loop entry2) = None →
       default [] (documents (Pregel.final (analysis_loop entry2))) = [] →
       analysis_team later = Ok u2 →
       documents (apply_update later u2) = Some d)
  ∧ (∀ fuel cur (s : SuperState) d,
       documents s = Some d → d ≠ [] →
       ∃ d', documents
               (Pregel.final
                  (Pregel.pregel_loop apply_update recursion_text
                     main_graph fuel cur s)) = Some d'
             ∧ d' ≠ []).
Proof.
  split; [|split; [|split]].
  - intros outer entry Hentry Hdone inner. subst inner.
    destruct (research_team_of_run outer entry Hentry Hdone)
      as (m0 & u & _ & Hu & _ & Hdocs). eauto.
  - intros outer entry Hentry Hdone inner. subst inner.
    destruct (analysis_team_of_run outer entry Hentry Hdone)
      as (m0 & u & _ & Hu & _ & Hdocs). eauto.
  - intros outer entry1 u1 d between entry2 u2 Hentry1 Hdone1 Hdocs1 Hne
      Hexit1 Hbetween later Hentry2 Hdone2 Hempty Hexit2.
    destruct (research_team_of_run outer entry1 Hentry1 Hdone1)
      as (_ & u1' & _ & Hu1 & _ & Hrule1).
    rewrite Hexit1 in Hu1. injection Hu1 as <-.
    destruct (analysis_team_of_run later entry2 Hentry2 Hdone2)
      as (_ & u2' & _ & Hu2 & _ & Hrule2).
    rewrite Hexit2 in Hu2. injection Hu2 as <-.
    rewrite Hrule2, Hempty. simpl. subst later.
    rewrite fold_documents by done.
    rewrite Hrule1, Hdocs1. simpl. by destruct d.
  - intros fuel cur s d Hdocs Hne.
    apply (final_invariant apply_update recursion_text
             (λ s' : SuperState, ∃ d', documents s' = Some d' ∧ d' ≠ []));
      [|eauto].
    intros n action s' u Hnode (d' & Hd' & Hne') Hrun. simpl.
    destruct (main_node_documents n action s' u Hnode Hrun)
      as [Hnone|(d'' & Hsome & Hne'')].
    + rewrite Hnone. simpl. eauto.
    + rewrite Hsome. simpl. eauto.
Qed.

(** C6, as the code has it.  A team node that returns ran its graph to
    the end, and every completed team run makes its node return.  The
    update appends exactly one message to the outer log: the last message
    of the inner log.  The messages the inner run produced are those of
    its member steps, one each, under the member's name; when at least one
    member ran, the message appended is the last of them; when the router
    finished at once, no member ran and the message appended is the
    unattributed copy of the outer log's own last message the team was
    entered with. *)
Theorem team_exit_appends_one_message :
  (∀ (outer : SuperState) u,
     research_team outer = Ok u →
     ∃ entry, research_entry_state outer = Ok entry
              ∧ Pregel.outcome (research_loop entry) = None)
  ∧ (∀ (outer : SuperState) u,
       analysis_team outer = Ok u →
       ∃ entry, analysis_entry_state outer = Ok entry
                ∧ Pregel.outcome (analysis_loop entry) = None)
  ∧ (∀ (outer : SuperState) entry,
       research_entry_state outer = Ok entry →
       Pregel.outcome (research_loop entry) = None →
       let steps := Pregel.events (research_loop entry) in
       let produced := flat_map appended (map snd steps) in
       ∃ m0 u,
         last (messages outer) = Some m0
         ∧ research_team outer = Ok u
         ∧ messages (apply_update outer u)
           = messages outer
             ++ [default (HumanMessage (content m0) None) (last produced)]
         ∧ map name produced
           = map Some (filter (λ n, n ∈ ["VideoSearch"; "CommentFinder"])
                         (map fst steps)))
  ∧ (∀ (outer : SuperState) entry,
       analysis_entry_state outer = Ok entry →
       Pregel.outcome (analysis_loop entry) = None →
       let steps := Pregel.events (analysis_loop entry) in
       let produced := flat_map appended (map snd steps) in
       ∃ m0 u,
         last (messages outer) = Some m0
         ∧ analysis_team outer = Ok u
         ∧ messages (apply_update outer u)
           = messages outer
             ++ [default (HumanMessage (content m0) None) (last produced)]
         ∧ map name produced
           = map Some (filter (λ n, n ∈ ["Topic"; "Sentiment"])
                         (map fst steps))).
Proof.
  split; [|split; [|split]].
  - apply research_team_completed.
  - apply analysis_team_completed.
  - intros outer entry Hentry Hdone steps produced. subst steps produced.
    destruct (research_team_of_run outer entry Hentry Hdone)
      as (m0 & u & Hlast & Hu & Hmsgs & _).
    exists m0, u. split; [done|]. split; [done|]. split; [done|].
    apply (attributions_of_events ["VideoSearch"; "CommentFinder"]),
      research_events.
  - intros outer entry Hentry Hdone steps produced. subst steps produced.
    destruct (analysis_team_of_run outer entry Hentry Hdone)
      as (m0 & u & Hlast & Hu & Hmsgs & _).
    exists m0, u. split; [done|]. split; [done|]. split; [done|].
    apply (attributions_of_events ["Topic"; "Sentiment"]),
      analysis_events.
Qed.

End GraphRuns.

(** ** The executors *)

Section Executors.

Variable recursion_limit : nat.
Variable recursion_text : string.
Variable analysis_llm
  : string → list string → list Message → result (list ToolCall).
Variable topic_run sentiment_run : SentimentState → result AgentFinish.
Variable ANALYSIS_SUPERVISOR_PROMPT : string.

(** The Analysis graph as the source builds it, on two executors. *)
Abbreviation executor_graph :=
  (build_analysis_graph analysis_llm (create_agent topic_run)
     (create_agent sentiment_run) ANALYSIS_SUPERVISOR_PROMPT).
Abbreviation executor_team :=
  (get_messages_and_documents recursion_limit recursion_text analysis_llm
     (create_agent topic_run) (create_agent sentiment_run)
     ANALYSIS_SUPERVISOR_PROMPT).

Lemma agent_node_echo {M} (state : GraphState M) run name u :
  agent_node state (create_agent run) name = Ok u →
  u_documents u = Some (default [] (documents state)).
Proof.
  unfold agent_node, create_agent.
  destruct (run state) as [finish|e]; simpl; [|done]. by intros [= <-].
Qed.

Lemma executor_graph_keeps_documents fuel cur (s : SentimentState) d :
  documents s = Some d →
  documents
    (Pregel.final
       (Pregel.pregel_loop apply_update recursion_text executor_graph
          fuel cur s))
  = Some d.
Proof.
  intros Hd.
  apply (final_invariant apply_update recursion_text
           (λ s' : SentimentState, documents s' = Some d)); [|exact Hd].
  intros n action s' u Hnode Hs' Hrun. simpl.
  pose proof (analysis_hub analysis_llm analysis_llm analysis_llm
                (create_agent topic_run) (create_agent sentiment_run)
                ANALYSIS_SUPERVISOR_PROMPT ANALYSIS_SUPERVISOR_PROMPT)
    as (_ & _ & _ & Hall & _).
  destruct (Hall n (ex_intro _ _ Hnode)) as [->|Hin].
  - change (Pregel.nodes executor_graph !! "AnalysisSupervisor")
      with (Some (create_team_supervisor (M := string) analysis_llm
                    ANALYSIS_SUPERVISOR_PROMPT ["Topic"; "Sentiment"]))
      in Hnode.
    injection Hnode as <-. apply supervisor_update in Hrun as [_ Hnone].
    by rewrite Hnone.
  - repeat (apply elem_of_cons in Hin as [->|Hin]);
      [..|by apply elem_of_nil in Hin].
    + change (Pregel.nodes executor_graph !! "Topic")
        with (Some (λ state : SentimentState,
                      agent_node state (create_agent topic_run) "Topic"))
        in Hnode.
      injection Hnode as <-. apply agent_node_echo in Hrun.
      by rewrite Hrun, Hs'.
    + change (Pregel.nodes executor_graph !! "Sentiment")
        with (Some (λ state : SentimentState,
                      agent_node state (create_agent sentiment_run)
                        "Sentiment"))
        in Hnode.
      injection Hnode as <-. apply agent_node_echo in Hrun.
      by rewrite Hrun, Hs'.
Qed.

(** C3.  [agent_node] writes the [documents] of the executor's result to
    the state, and an executor hands its inputs back beside its outputs:
    what is written is the document list the state already held (the empty
    list when the state had none), so a capability that produced no
    documents clears nothing.  Every run of the Analysis graph, from any
    node and under any budget, therefore ends with the documents it
    started with, and the exit of the Analysis team leaves the outer
    document set as it was. *)
Theorem agent_node_keeps_documents :
  (∀ M (state : GraphState M) run name finish,
     run state = Ok finish →
     ∃ u, agent_node state (create_agent run) name = Ok u
          ∧ u_messages u
            = Some [HumanMessage (return_output finish) (Some name)]
          ∧ documents (apply_update state u)
            = Some (default [] (documents state))
          ∧ (∀ d, documents state = Some d →
               documents (apply_update state u) = documents state))
  ∧ (∀ fuel cur (s : SentimentState) d,
       documents s = Some d →
       documents
         (Pregel.final
            (Pregel.pregel_loop apply_update recursion_text executor_graph
               fuel cur s))
       = Some d)
  ∧ (∀ (outer : SuperState) u,
       executor_team outer = Ok u →
       documents (apply_update outer u) = documents outer).
Proof.
  split; [|split].
  - intros M state run name finish Hrun.
    unfold agent_node, create_agent. rewrite Hrun. simpl.
    eexists. split; [reflexivity|]. split; [reflexivity|].
    split; [reflexivity|]. intros d Hd. simpl. by rewrite Hd.
  - apply executor_graph_keeps_documents.
  - intros outer u Hexit.
    destruct (analysis_team_completed recursion_limit recursion_text
                analysis_llm (create_agent topic_run)
                (create_agent sentiment_run) ANALYSIS_SUPERVISOR_PROMPT
                outer u Hexit) as (entry & Hentry & Hdone).
    destruct (analysis_team_of_run recursion_limit recursion_text
                analysis_llm (create_agent topic_run)
                (create_agent sentiment_run) ANALYSIS_SUPERVISOR_PROMPT
                outer entry Hentry Hdone)
      as (_ & u' & _ & Hu' & _ & Hrule).
    rewrite Hexit in Hu'. injection Hu' as <-. rewrite Hrule.
    assert (Hheld :
      documents entry = Some (default [] (documents outer))).
    { unfold analysis_entry_state, last_item in Hentry.
      destruct (last (messages outer)); simpl in Hentry; [|done].
      by injection Hentry as <-. }
    rewrite (executor_graph_keeps_documents _ _ _ _ Hheld).
    by destruct (documents outer) as [[|d ds]|].
Qed.

End Executors.

(** ** The document-preserving wrapper *)

Lemma documents_of_steps_last pre a resp docs post :
  Forall (λ st, ¬ carries_documents st) post →
  documents_of_steps (pre ++ (a, ObsDict resp (Some docs)) :: post) = docs.
Proof.
  intros Hpost. unfold documents_of_steps. rewrite foldl_app. simpl.
  generalize (foldl
                (λ (docs0 : list Document) (step : string * Observation),
                   match step.2 with
                   | ObsDict _ (Some d) => d
                   | _ => docs0
                   end) [] pre).
  intros _. induction Hpost as [|[b o] post Hno _ IH]; [done|].
  simpl. unfold carries_documents in Hno. simpl in Hno.
  destruct o as [text|resp' [d|]]; [exact IH|by destruct Hno|exact IH].
Qed.

(** X13.  [agent_node_with_docs] never empties the document set: the
    documents it writes are those of the last tool observation that
    carries a [documents] key when the node is [CommentFinder] and that
    list is non-empty, and the state's own documents otherwise (the empty
    list only when the state had none); under any other node name the tool
    observations are ignored. *)
Theorem agent_node_with_docs_keeps_documents :
  ∀ M (state : GraphState M) agent name r,
    agent state = Ok r →
    ∃ u,
      agent_node_with_docs state agent name = Ok u
      ∧ u_messages u = Some [HumanMessage (output r) (Some name)]
      ∧ (∀ d, documents state = Some d → d ≠ [] →
           ∃ d', documents (apply_update state u) = Some d' ∧ d' ≠ [])
      ∧ (name ≠ "CommentFinder" →
         documents (apply_update state u)
         = Some (default [] (documents state)))
      ∧ (name = "CommentFinder" →
         ∀ pre a resp docs post,
           intermediate_steps r
           = Some (pre ++ (a, ObsDict resp (Some docs)) :: post) →
           Forall (λ st, ¬ carries_documents st) post →
           documents (apply_update state u)
           = Some (if truthy docs then docs
                   else default [] (documents state))).
Proof.
  intros M state agent name r Hrun.
  unfold agent_node_with_docs. rewrite Hrun. simpl.
  eexists. split; [reflexivity|]. split; [reflexivity|]. simpl.
  split; [|split].
  - intros d Hd Hne. rewrite Hd. simpl.
    match goal with
    | |- context [truthy ?docs] => destruct docs as [|x xs] eqn:Hdocs
    end; simpl; eauto.
  - intros Hname. by destruct (decide (name = "CommentFinder")).
  - intros Hname pre a resp docs post Hsteps Hpost.
    destruct (decide (name = "CommentFinder")); [|done].
    rewrite Hsteps. by rewrite documents_of_steps_last.
Qed.

(** ** [extract_video_id] *)

#[local] Arguments String.append !_ _ / : simpl nomatch.

Lemma take_id_spec n s v rest :
  take_id n s = Some (v, rest) →
  s = v +:+ rest ∧ String.length v = n ∧ all_id_chars v = true.
Proof.
  revert s v rest. induction n as [|n IH]; intros s v rest; simpl.
  - by intros [= <- <-].
  - destruct s as [|c s]; [done|].
    destruct (id_char c) eqn:Hc; [|done].
    destruct (take_id n s) as [[v' rest']|] eqn:Htake; [|done].
    intros [= <- <-]. destruct (IH _ _ _ Htake) as (-> & <- & Hall).
    simpl. by rewrite Hc, Hall.
Qed.

Lemma take_id_app n v rest :
  String.length v = n → all_id_chars v = true →
  take_id n (v +:+ rest) = Some (v, rest).
Proof.
  revert v. induction n as [|n IH]; intros [|c v]; simpl; try done.
  intros [= Hlen] [Hc Hall]%andb_prop. by rewrite Hc, IH.
Qed.

Lemma strip_prefix_spec lit s after :
  strip_prefix lit s = Some after → s = lit +:+ after.
Proof.
  revert s. induction lit as [|c lit IH]; intros s; simpl.
  - by intros [= ->].
  - destruct s as [|c' s]; [done|].
    destruct (Ascii.eqb c c') eqn:Hc; [|done].
    apply Ascii.eqb_eq in Hc as ->. by intros ->%IH.
Qed.

Lemma strip_prefix_app lit after :
  strip_prefix lit (lit +:+ after) = Some after.
Proof.
  induction lit as [|c lit IH]; simpl; [done|].
  by rewrite Ascii.eqb_refl.
Qed.

Lemma has_slash_app a b : has_slash (a +:+ b) = has_slash a || has_slash b.
Proof.
  induction a as [|c a IH]; simpl; [done|]. by rewrite IH, orb_assoc.
Qed.

Lemma id_chars_no_slash v : all_id_chars v = true → has_slash v = false.
Proof.
  induction v as [|c v IH]; simpl; [done|].
  intros [Hc Hall]%andb_prop. rewrite IH by done.
  destruct (Ascii.eqb c "/") eqn:Heq; [|done].
  apply Ascii.eqb_eq in Heq as ->. done.
Qed.

Lemma match_here_spec lit s v :
  match_here lit s = Some v →
  valid_id v ∧ ∃ post, s = lit +:+ v +:+ post.
Proof.
  unfold match_here.
  destruct (strip_prefix lit s) as [after|] eqn:Hstrip; [|done].
  destruct (take_id 11 after) as [[v' post]|] eqn:Htake; [|done].
  intros [= <-]. apply strip_prefix_spec in Hstrip as ->.
  apply take_id_spec in Htake as (-> & Hlen & Hall).
  split; [by split|]. by exists post.
Qed.

Lemma match_here_app lit v post :
  valid_id v → match_here lit (lit +:+ v +:+ post) = Some v.
Proof.
  intros [Hlen Hall]. unfold match_here.
  by rewrite strip_prefix_app, take_id_app.
Qed.

Lemma search_id_spec lit s v :
  search_id lit s = Some v →
  valid_id v ∧ ∃ pre post, s = pre +:+ lit +:+ v +:+ post.
Proof.
  induction s as [|c s IH]; simpl.
  - destruct (match_here lit "") as [v'|] eqn:Hhere; [|done].
    intros [= <-]. apply match_here_spec in Hhere as [Hv [post Hs]].
    split; [done|]. by exists "", post.
  - destruct (match_here lit (String c s)) as [v'|] eqn:Hhere.
    + intros [= <-]. apply match_here_spec in Hhere as [Hv [post Hs]].
      split; [done|]. by exists "", post.
    + intros (Hv & pre & post & ->)%IH. split; [done|].
      by exists (String c pre), post.
Qed.

Lemma search_id_hit lit s v :
  match_here lit s = Some v → search_id lit s = Some v.
Proof. intros Hhere. destruct s; simpl; by rewrite Hhere. Qed.

Lemma search_id_skip lit c s :
  match_here lit (String c s) = None →
  search_id lit (String c s) = search_id lit s.
Proof. intros Hhere. simpl. by rewrite Hhere. Qed.

Lemma search_id_no_slash lit s :
  has_slash lit = true → has_slash s = false → search_id lit s = None.
Proof.
  intros Hlit Hs.
  destruct (search_id lit s) as [v|] eqn:Hfound; [|done].
  apply search_id_spec in Hfound as (_ & pre & post & ->).
  rewrite !has_slash_app, Hlit in Hs. by rewrite orb_true_r in Hs.
Qed.

Lemma append_empty (v : string) : v +:+ "" = v.
Proof. induction v as [|c v IH]; simpl; [done|]. by rewrite IH. Qed.

Lemma is_bare_id_spec url :
  is_bare_id url = true
  ↔ ∃ id, valid_id id ∧ (url = id ∨ url = id +:+ newline).
Proof.
  unfold is_bare_id. split.
  - destruct (take_id 11 url) as [[v rest]|] eqn:Htake; [|done].
    intros Hend%bool_decide_eq_true.
    apply take_id_spec in Htake as (-> & Hlen & Hall).
    exists v. split; [by split|].
    destruct Hend as [->| ->]; [left|by right].
    apply append_empty.
  - intros (id & [Hlen Hall] & [->| ->]).
    + rewrite <- (append_empty id) at 1.
      rewrite take_id_app by done. apply bool_decide_eq_true. by left.
    + rewrite take_id_app by done. apply bool_decide_eq_true. by right.
Qed.

Lemma first_match_spec ps url v :
  first_match ps url = Some v →
  valid_id v ∧ ∃ lit pre post,
    lit ∈ ps ∧ url = pre +:+ lit +:+ v +:+ post.
Proof.
  induction ps as [|p ps IH]; simpl; [done|].
  destruct (search_id p url) as [v'|] eqn:Hsearch.
  - intros [= <-]. apply search_id_spec in Hsearch as (Hv & pre & post & ->).
    split; [done|]. exists p, pre, post. split; [by left|done].
  - intros (Hv & lit & pre & post & Hin & ->)%IH. split; [done|].
    exists lit, pre, post. split; [by right|done].
Qed.

(** X14.  Whatever [extract_video_id] returns is taken from the URL: either
    the URL itself, when it is eleven characters of the class
    [[A-Za-z0-9_-]], alone or followed by one newline, or the eleven such
    characters that follow one of the four markers in the URL. *)
Theorem extracted_id_is_well_formed url v :
  extract_video_id url = Some v →
  (v = url ∧ ∃ id, valid_id id ∧ (url = id ∨ url = id +:+ newline))
  ∨ (valid_id v
     ∧ ∃ lit pre post, lit ∈ patterns ∧ url = pre +:+ lit +:+ v +:+ post).
Proof.
  unfold extract_video_id. destruct (is_bare_id url) eqn:Hbare.
  - intros [= <-]. left. split; [done|]. by apply is_bare_id_spec.
  - intros Hmatch. right. by apply first_match_spec.
Qed.

Ltac skip_misses :=
  cbn [String.append];
  repeat (rewrite search_id_skip by reflexivity).

Ltac no_match_in id rest Hall Hrest :=
  skip_misses;
  rewrite (search_id_no_slash _ (id +:+ rest))
    by (try reflexivity;
        rewrite has_slash_app, (id_chars_no_slash id Hall), Hrest;
        reflexivity).

(** X15.  The identifier comes back from each documented form: a valid
    identifier alone is returned as it is; after
    [https://www.youtube.com/watch?v=] it is returned whatever follows it;
    after [https://youtu.be/], [https://www.youtube.com/embed/] or
    [https://www.youtube.com/v/] it is returned when what follows has no
    slash. *)
Theorem documented_urls_round_trip id :
  valid_id id →
  extract_video_id id = Some id
  ∧ (∀ rest,
       extract_video_id ("https://www.youtube.com/watch?v=" +:+ id +:+ rest)
       = Some id)
  ∧ (∀ rest,
       has_slash rest = false →
       extract_video_id ("https://youtu.be/" +:+ id +:+ rest) = Some id
       ∧ extract_video_id ("https://www.youtube.com/embed/" +:+ id +:+ rest)
         = Some id
       ∧ extract_video_id ("https://www.youtube.com/v/" +:+ id +:+ rest)
         = Some id).
Proof.
  intros Hvalid. pose proof Hvalid as [Hlen Hall].
  split; [|split].
  - unfold extract_video_id.
    rewrite (proj2 (is_bare_id_spec id)); [done|]. exists id. by split; [|left].
  - intros rest. unfold extract_video_id.
    replace (is_bare_id _) with false by reflexivity.
    cbn [first_match patterns]. skip_misses.
    by rewrite (search_id_hit _ _ id)
      by exact (match_here_app "youtube.com/watch?v=" id rest Hvalid).
  - intros rest Hrest. split; [|split]; unfold extract_video_id;
      replace (is_bare_id _) with false by reflexivity;
      cbn [first_match patterns].
    + no_match_in id rest Hall Hrest. skip_misses.
      by rewrite (search_id_hit _ _ id)
        by exact (match_here_app "youtu.be/" id rest Hvalid).
    + no_match_in id rest Hall Hrest. no_match_in id rest Hall Hrest.
      skip_misses.
      by rewrite (search_id_hit _ _ id)
        by exact (match_here_app "youtube.com/embed/" id rest Hvalid).
    + no_match_in id rest Hall Hrest. no_match_in id rest Hall Hrest.
      no_match_in id rest Hall Hrest. skip_misses.
      by rewrite (search_id_hit _ _ id)
        by exact (match_here_app "youtube.com/v/" id rest Hvalid).
Qed.

(** X16.  A string with no slash in it is accepted only as a bare
    identifier: unless it is eleven characters of the class, alone or
    followed by one newline, the result is [None]; so the empty string and
    identifiers of ten or twelve characters are rejected. *)
Theorem strings_without_slash_need_a_bare_id url :
  has_slash url = false →
  (¬ ∃ id, valid_id id ∧ (url = id ∨ url = id +:+ newline)) →
  extract_video_id url = None.
Proof.
  intros Hslash Hbare. unfold extract_video_id.
  destruct (is_bare_id url) eqn:His.
  - destruct Hbare. by apply is_bare_id_spec.
  - cbn [first_match patterns].
    by rewrite !search_id_no_slash.
Qed.

(** ** The request handler *)

Section RequestFacts.

Context {Retriever Rag Blob : Type}.
Variable create_unified_video_document :
  string → Z → result (Document * gmap string Blob).
Variable prepare_documents_for_retrieval :
  Document → gmap string Blob
  → result (Document * list Document * list Document).
Variable build_retrieval : list Document → result (Retriever * Rag).
Variable build_agents :
  Rag → string → string → gmap string Blob
  → result (gmap string SuperState → string → string
            → list Event * gmap string SuperState).

Abbreviation Graph' := Routes.CompiledGraph.
Abbreviation Store' :=
  (SessionManager.SessionManager Routes.CompiledGraph Retriever Blob).
Abbreviation new_session' :=
  (Routes.new_session create_unified_video_document
     prepare_documents_for_retrieval build_retrieval build_agents).
Abbreviation follow_up' :=
  (Routes.follow_up (Retriever := Retriever) (Blob := Blob)).
Implicit Types (store : Store') (env : Routes.Ambient).

(** X17.  A follow-up on an identifier the store does not hold, or holds
    but past its TTL, yields the progress line and the not-found error and
    nothing else, without running any graph; the store is left as it was
    in the first case and without the lapsed session in the second. *)
Theorem follow_up_on_missing_session env sid question store :
  (SessionManager._sessions store !! sid = None →
   follow_up' env sid question store
   = ([Routes.progress ("Continuing conversation in session: "
                        +:+ String.substring 0 8 sid +:+ "...");
       Routes.not_found], store))
  ∧ (∀ s, SessionManager._sessions store !! sid = Some s →
       SessionManager.lapsed store (Routes.now_get_check env) s →
       follow_up' env sid question store
       = ([Routes.progress ("Continuing conversation in session: "
                            +:+ String.substring 0 8 sid +:+ "...");
           Routes.not_found],
          SessionManager.delete_session sid store)).
Proof.
  split.
  - intros Hnone. unfold Routes.follow_up, SessionManager.get_session.
    by rewrite Hnone.
  - intros s Hs Hlapsed. unfold Routes.follow_up.
    unfold SessionManager.lapsed in Hlapsed.
    rewrite (get_session_expired _ _ _ _ _ Hs) by lia. done.
Qed.

(** X18.  A follow-up on a live session that holds a graph runs one turn
    of that graph on the thread named by the session identifier, from the
    memory the graph holds: the lines are the three progress lines and
    then the events of the turn; afterwards the store holds the session
    with its last access set to the clock reading and the graph with the
    memory the turn left; every other session is as before. *)
Theorem follow_up_runs_on_session_memory env sid question store s g :
  SessionManager._sessions store !! sid = Some s →
  ¬ SessionManager.lapsed store (Routes.now_get_check env) s →
  SessionManager.main_graph s = Some g →
  let turn := Routes.graph_turn g (Routes.graph_memory g) sid question in
  let out := follow_up' env sid question store in
  out.1
  = [Routes.progress ("Continuing conversation in session: "
                      +:+ String.substring 0 8 sid +:+ "...");
     Routes.progress ("Using cached data for: "
                      +:+ SessionManager.video_title s);
     Routes.progress "Starting analysis..."]
    ++ map Routes.event turn.1
  ∧ (∃ s', SessionManager._sessions out.2 !! sid = Some s'
           ∧ SessionManager.last_accessed s' = Routes.now_get_touch env
           ∧ SessionManager.main_graph s'
             = Some (Routes.mkCompiledGraph (Routes.graph_turn g) turn.2)
           ∧ SessionManager.documents s' = SessionManager.documents s
           ∧ SessionManager.session_id s' = SessionManager.session_id s)
  ∧ (∀ sid', sid' ≠ sid →
       SessionManager._sessions out.2 !! sid'
       = SessionManager._sessions store !! sid')
  ∧ SessionManager._session_ttl out.2 = SessionManager._session_ttl store.
Proof.
  intros Hs Hlive Hgraph turn out. subst turn out.
  unfold Routes.follow_up. unfold SessionManager.lapsed in Hlive.
  rewrite (get_session_live _ _ _ _ _ Hs) by lia.
  cbn [SessionManager.touch SessionManager.main_graph]. rewrite Hgraph.
  cbn [fst snd Routes.run_turn]. split; [done|]. split; [|split; [|done]].
  - eexists. split.
    + unfold Routes.set_graph. cbn [SessionManager._sessions
                                      SessionManager.set_sessions].
      rewrite lookup_alter_eq, lookup_insert_eq. reflexivity.
    + done.
  - intros sid' Hne. unfold Routes.set_graph.
    cbn [SessionManager._sessions SessionManager.set_sessions].
    rewrite lookup_alter_ne by done. by rewrite lookup_insert_ne.
Qed.

(** X19.  A new request stores nothing until the video data are there: if
    the URL yields no identifier or the fetch raises, the store is as
    before and no session was announced.  Once the data are there the
    session is created and announced before the rest of the setup runs; if
    a later setup step raises, the request ends with the error report
    while the store keeps the session without a graph, and every
    follow-up on it within the TTL is answered with the not-found error
    and still refreshes its last access. *)
Theorem failed_setup_leaves_session_without_graph
    env url max_comments question store :
  (extract_video_id url = None →
   new_session' env url max_comments question store
   = ([Routes.event
         (format_error_message "Invalid YouTube URL or video ID")], store))
  ∧ (∀ vid e,
       extract_video_id url = Some vid →
       create_unified_video_document vid max_comments = Raise e →
       ∃ lines,
         new_session' env url max_comments question store
         = (lines ++ [Routes.event (report e)], store)
         ∧ Forall (λ l, ¬ Routes.is_session_created l) lines)
  ∧ (∀ vid unified raw e,
       extract_video_id url = Some vid →
       create_unified_video_document vid max_comments = Ok (unified, raw) →
       let title := Routes.metadata_get "title" "Unknown" (metadata unified) in
       let channel :=
         Routes.metadata_get "channel" "Unknown" (metadata unified) in
       (prepare_documents_for_retrieval unified raw = Raise e
        ∨ (∃ context comments docs,
             prepare_documents_for_retrieval unified raw
             = Ok (context, comments, docs)
             ∧ (build_retrieval docs = Raise e
                ∨ ∃ retriever rag,
                    build_retrieval docs = Ok (retriever, rag)
                    ∧ build_agents rag title channel raw = Raise e))) →
       let out := new_session' env url max_comments question store in
       (∃ lines,
          out.1 = lines ++ [Routes.event (report e)]
          ∧ Routes.session_created (Routes.uuid4 env) vid title channel
            ∈ lines)
       ∧ SessionManager._sessions out.2 !! Routes.uuid4 env
         = Some (Routes.fresh_session env vid title channel)
       ∧ (∀ env' question',
            (Routes.now_get_check env' - Routes.now_accessed env
             ≤ SessionManager._session_ttl store)%Z →
            let again := follow_up' env' (Routes.uuid4 env) question' out.2 in
            again.1
            = [Routes.progress
                 ("Continuing conversation in session: "
                  +:+ String.substring 0 8 (Routes.uuid4 env) +:+ "...");
               Routes.not_found]
            ∧ SessionManager._sessions again.2 !! Routes.uuid4 env
              = Some (SessionManager.touch (Routes.now_get_touch env')
                        (Routes.fresh_session env vid title channel)))).
Proof.
  split; [|split].
  - intros Hnone. unfold Routes.new_session. by rewrite Hnone.
  - intros vid e Hvid Hfetch. unfold Routes.new_session.
    rewrite Hvid, Hfetch. eexists. split; [reflexivity|].
    repeat constructor; by intros [].
  - intros vid unified raw e Hvid Hfetch title channel Hfail out.
    assert (Hout :
      ∃ lines,
        out = (lines ++ [Routes.event (report e)],
               (SessionManager.create_session (Routes.uuid4 env)
                  (Routes.now_created env) (Routes.now_accessed env)
                  vid title channel store).2)
        ∧ Routes.session_created (Routes.uuid4 env) vid title channel
          ∈ lines).
    { subst out. unfold Routes.new_session. rewrite Hvid, Hfetch.
      fold title channel. cbn [fst snd SessionManager.create_session].
      destruct Hfail as [Hprep|(context & comments & docs & Hprep & Hfail)].
      { rewrite Hprep. eexists. split; [reflexivity|]. set_solver. }
      rewrite Hprep.
      destruct Hfail as [Hbuild|(retriever & rag & Hbuild & Hagents)].
      { rewrite Hbuild. eexists. split; [reflexivity|]. set_solver. }
      rewrite Hbuild, Hagents. eexists. split; [reflexivity|]. set_solver. }
    destruct Hout as (lines & Hout & Hannounced). rewrite Hout.
    cbn [fst snd SessionManager.create_session].
    split; [by exists lines|].
    assert (Hstored :
      SessionManager._sessions
        (SessionManager.set_sessions store
           (<[Routes.uuid4 env := Routes.fresh_session env vid title channel]>
              (SessionManager._sessions store))) !! Routes.uuid4 env
      = Some (Routes.fresh_session env vid title channel))
      by apply lookup_insert_eq.
    split; [exact Hstored|].
    intros env' question' Hin.
    unfold Routes.follow_up.
    rewrite (get_session_live _ _ _ _ _ Hstored) by (simpl; lia).
    cbn [SessionManager.touch SessionManager.main_graph Routes.fresh_session
         fst snd].
    split; [done|]. apply lookup_insert_eq.
Qed.

(** X20.  When the whole setup of a new request succeeds, the session is
    announced once, the first turn runs on a fresh memory under the
    session identifier, and the store ends up holding the session with the
    documents, the retriever, the raw data and the graph with the memory
    that turn left; a follow-up within the TTL then runs its turn from
    exactly that memory. *)
Theorem new_session_then_follow_up
    env url max_comments question store
    vid unified raw context comments docs retriever rag turn_fn :
  extract_video_id url = Some vid →
  create_unified_video_document vid max_comments = Ok (unified, raw) →
  prepare_documents_for_retrieval unified raw
  = Ok (context, comments, docs) →
  build_retrieval docs = Ok (retriever, rag) →
  let title := Routes.metadata_get "title" "Unknown" (metadata unified) in
  let channel := Routes.metadata_get "channel" "Unknown" (metadata unified) in
  build_agents rag title channel raw = Ok turn_fn →
  let sid := Routes.uuid4 env in
  let first := turn_fn ∅ sid question in
  let out := new_session' env url max_comments question store in
  (∃ before after,
     out.1 = before ++ [Routes.session_created sid vid title channel]
             ++ after ++ [Routes.progress "Starting analysis..."]
             ++ map Routes.event first.1
     ∧ Forall (λ l, ¬ Routes.is_session_created l) (before ++ after))
  ∧ SessionManager._sessions out.2 !! sid
    = Some (SessionManager.mkVideoSession sid vid title channel
              (Routes.now_created env) (Routes.now_update env)
              (Some (Routes.mkCompiledGraph turn_fn first.2))
              docs (Some retriever) raw)
  ∧ (∀ env' question',
       (Routes.now_get_check env' - Routes.now_update env
        ≤ SessionManager._session_ttl store)%Z →
       ∃ head,
         (follow_up' env' sid question' out.2).1
         = head ++ map Routes.event (turn_fn first.2 sid question').1).
Proof.
  intros Hvid Hfetch Hprep Hbuild title channel Hagents sid first out.
  assert (Hout :
    out = (((([Routes.progress ("Analyzing video: " +:+ vid);
              Routes.progress
                "Fetching video data, comments, and transcript..."]
             ++ [Routes.progress ("Video: " +:+ title +:+ " by " +:+ channel);
                 Routes.session_created sid vid title channel;
                 Routes.progress "Preparing documents for retrieval..."])
            ++ [Routes.progress ("Prepared " +:+ pretty (length docs)
                                 +:+ " documents ("
                                 +:+ pretty (length comments)
                                 +:+ " comments)");
                Routes.progress "Building retrieval system..."])
           ++ [Routes.progress
                 "Initializing multi-agent system with memory..."])
          ++ (Routes.progress "Starting analysis..."
              :: map Routes.event first.1),
          Routes.set_graph sid (Routes.mkCompiledGraph turn_fn first.2)
            (SessionManager.update_session (Routes.now_update env) sid
               (Some (Routes.mkCompiledGraph turn_fn ∅)) (Some docs)
               (Some retriever) (Some raw)
               (SessionManager.create_session sid (Routes.now_created env)
                  (Routes.now_accessed env) vid title channel store).2))).
  { subst out. unfold Routes.new_session.
    rewrite Hvid, Hfetch. fold title channel. rewrite Hprep, Hbuild.
    rewrite Hagents. reflexivity. }
  assert (Hstored :
    SessionManager._sessions out.2 !! sid
    = Some (SessionManager.mkVideoSession sid vid title channel
              (Routes.now_created env) (Routes.now_update env)
              (Some (Routes.mkCompiledGraph turn_fn first.2))
              docs (Some retriever) raw)).
  { rewrite Hout. cbn [snd]. unfold Routes.set_graph.
    unfold SessionManager.update_session, SessionManager.create_session.
    cbn [fst snd SessionManager._sessions SessionManager.set_sessions].
    rewrite lookup_insert_eq.
    cbn [SessionManager._sessions SessionManager.set_sessions].
    rewrite lookup_alter_eq, lookup_insert_eq. reflexivity. }
  split; [|split; [exact Hstored|]].
  - exists (firstn 3 out.1), (firstn 4 (skipn 4 out.1)). rewrite Hout. split.
    + reflexivity.
    + repeat constructor; by intros [].
  - intros env' question' Hin.
    unfold Routes.follow_up.
    assert (Httl : SessionManager._session_ttl out.2
                   = SessionManager._session_ttl store)
      by (rewrite Hout; cbn [snd]; unfold Routes.set_graph,
            SessionManager.update_session, SessionManager.create_session;
          cbn [fst snd SessionManager._sessions SessionManager.set_sessions];
          rewrite lookup_insert_eq; reflexivity).
    rewrite (get_session_live _ _ _ _ _ Hstored) by (simpl; lia).
    cbn [SessionManager.touch SessionManager.main_graph fst snd
         Routes.run_turn Routes.graph_turn Routes.graph_memory].
    eexists (cons _ (cons _ (cons _ nil))). reflexivity.
Qed.

End RequestFacts.

(** ** The statements on explicit inputs, continued *)

(** C1 on a thread that holds one comment: a Research run whose
    [CommentFinder] retrieved one reply replaces the outer document set by
    that reply; a Research run that finishes at once comes back with no
    documents and leaves the comment in place. *)
Lemma team_exit_document_rule_witness :
  (∃ u,
     research_team_node 25 Scenario.limit_text
       (Scenario.llm_by_length Scenario.finder_once)
       (Scenario.agent_says "links")
       (Scenario.agent_retrieves "found" [Scenario.reply]) ""
       Scenario.earlier_turn = Ok u
     ∧ documents (apply_update Scenario.earlier_turn u)
       = Some [Scenario.reply])
  ∧ (∃ u,
       research_team_node 25 Scenario.limit_text
         (Scenario.llm_always "FINISH")
         (Scenario.agent_says "links")
         (Scenario.agent_retrieves "found" [Scenario.reply]) ""
         Scenario.earlier_turn = Ok u
       ∧ documents (apply_update Scenario.earlier_turn u)
         = Some [Scenario.comment]).
Proof.
  split.
  - destruct (proj1 (team_exit_document_rule 25 Scenario.limit_text
                       (Scenario.llm_by_length Scenario.finder_once)
                       (Scenario.llm_always "FINISH")
                       (Scenario.llm_always "FINISH")
                       (Scenario.agent_says "links")
                       (Scenario.agent_retrieves "found" [Scenario.reply])
                       (Scenario.agent_says "topics")
                       (Scenario.agent_says "positive") "" "" "")
                Scenario.earlier_turn _ eq_refl eq_refl)
      as (u & Hexit & Hdocs).
    exists u. split; [exact Hexit|]. rewrite Hdocs. reflexivity.
  - destruct (proj1 (team_exit_document_rule 25 Scenario.limit_text
                       (Scenario.llm_always "FINISH")
                       (Scenario.llm_always "FINISH")
                       (Scenario.llm_always "FINISH")
                       (Scenario.agent_says "links")
                       (Scenario.agent_retrieves "found" [Scenario.reply])
                       (Scenario.agent_says "topics")
                       (Scenario.agent_says "positive") "" "" "")
                Scenario.earlier_turn _ eq_refl eq_refl)
      as (u & Hexit & Hdocs).
    exists u. split; [exact Hexit|]. rewrite Hdocs. reflexivity.
Defined.

(** C3 on the Sentiment node: it runs on a team state that holds one
    comment, its executor produces no documents, and the state holds the
    comment afterwards. *)
Lemma agent_node_keeps_documents_witness :
  ∃ u,
    agent_node (M := string)
      {| messages := [Scenario.question];
         documents := Some [Scenario.comment];
         team_members := Some "Topic, Sentiment";
         next := Some "Sentiment" |}
      (Scenario.agent_says "positive") "Sentiment" = Ok u
    ∧ u_messages u = Some [HumanMessage "positive" (Some "Sentiment")]
    ∧ documents
        (apply_update
           {| messages := [Scenario.question];
              documents := Some [Scenario.comment];
              team_members := Some "Topic, Sentiment";
              next := Some "Sentiment" |} u)
      = Some [Scenario.comment].
Proof.
  destruct (proj1 (agent_node_keeps_documents 25 Scenario.limit_text
                     (Scenario.llm_always "FINISH")
                     (λ _, Ok (mkAgentFinish "topics" []))
                     (λ _, Ok (mkAgentFinish "positive" [])) "")
              string
              {| messages := [Scenario.question];
                 documents := Some [Scenario.comment];
                 team_members := Some "Topic, Sentiment";
                 next := Some "Sentiment" |}
              (λ _, Ok (mkAgentFinish "positive" [])) "Sentiment"
              (mkAgentFinish "positive" []) eq_refl)
    as (u & Hnode & Hmsg & Hdocs & _).
  exists u. split; [exact Hnode|]. split; [exact Hmsg|exact Hdocs].
Defined.

(** The same in a whole run of the Analysis team: entered with one
    comment, it comes back with that comment. *)
Example analysis_run_keeps_documents :
  Scenario.analysis_once
    {| message := "What do people think?";
       input_documents := Some [Scenario.comment] |}
  = Ok {| messages := [Scenario.question;
                       HumanMessage "positive" (Some "Sentiment")];
          documents := Some [Scenario.comment];
          team_members := Some "Topic, Sentiment";
          next := Some "FINISH" |}.
Proof. vm_compute. reflexivity. Qed.

(** C6 as stated fails when the router of a team answers [FINISH] on its
    first decision: the run completes without a member step, the inner
    machine produced no message, and the message appended to the outer log
    is a copy of the outer log's own last message. *)
Lemma team_exit_without_member_message :
  Pregel.events
    (Pregel.pregel_loop apply_update Scenario.limit_text
       (build_research_graph (Scenario.llm_always "FINISH")
          (Scenario.agent_says "links") (Scenario.agent_says "comments")
          "")
       25 "ResearchSupervisor"
       {| messages := [HumanMessage "Mostly positive." None];
          documents := None; team_members := None; next := None |})
  = [("ResearchSupervisor",
      {| u_messages := None; u_documents := None; u_team_members := None;
         u_next := Some "FINISH" |})]
  ∧ research_entry_state Scenario.earlier_turn
    = Ok {| messages := [HumanMessage "Mostly positive." None];
            documents := None; team_members := None; next := None |}
  ∧ research_team_node 25 Scenario.limit_text
      (Scenario.llm_always "FINISH")
      (Scenario.agent_says "links") (Scenario.agent_says "comments") ""
      Scenario.earlier_turn
    = Ok {| u_messages := Some [HumanMessage "Mostly positive." None];
            u_documents := None; u_team_members := None;
            u_next := None |}
  ∧ last (messages Scenario.earlier_turn)
    = Some (HumanMessage "Mostly positive." (Some "Sentiment")).
Proof. vm_compute. repeat split. Qed.

(** C6, amended, on an Analysis run in which [Sentiment] ran once: the
    message appended to the outer log is the one [Sentiment] produced. *)
Lemma team_exit_appends_one_message_witness :
  ∃ u,
    get_messages_and_documents 25 Scenario.limit_text
      (Scenario.llm_by_length Scenario.sentiment_once)
      (Scenario.agent_says "topics") (Scenario.agent_says "positive") ""
      Scenario.earlier_turn = Ok u
    ∧ messages (apply_update Scenario.earlier_turn u)
      = [Scenario.question; Scenario.answer;
         HumanMessage "positive" (Some "Sentiment")].
Proof.
  destruct (proj2 (proj2 (proj2
              (team_exit_appends_one_message 25 Scenario.limit_text
                 (Scenario.llm_always "FINISH")
                 (Scenario.llm_by_length Scenario.sentiment_once)
                 (Scenario.llm_always "FINISH")
                 (Scenario.agent_says "links")
                 (Scenario.agent_says "comments")
                 (Scenario.agent_says "topics")
                 (Scenario.agent_says "positive") "" "" "")))
              Scenario.earlier_turn _ eq_refl eq_refl)
    as (m0 & u & _ & Hexit & Hlog & _).
  exists u. split; [exact Hexit|]. rewrite Hlog. reflexivity.
Defined.


(** X11 on the follow-up turn of [Scenario.quiet_turn]: both runs
    complete, and the answer is the last message of the thread. *)
Lemma answer_is_last_message_of_thread_witness :
  ∃ after m,
    (Scenario.quiet_turn Scenario.saver "s1" "And the topics?").2 !! "s1"
    = Some after
    ∧ last (messages after) = Some m
    ∧ (Scenario.quiet_turn Scenario.saver "s1" "And the topics?").1
      = (stream_progress "s1"
           (Pregel.events
              (Scenario.quiet_run Scenario.saver "s1"
                 (initial_state "And the topics?")).1)).1
        ++ [final_response (content m)
              (match documents after with
               | Some (d :: ds) =>
                   Some (map (λ d, (page_content d, metadata d)) (d :: ds))
               | _ => None
               end)
              "s1"].
Proof.
  exact (answer_is_last_message_of_thread 25 Scenario.limit_text
           (Scenario.llm_always "FINISH") (Scenario.llm_always "FINISH")
           (Scenario.llm_always "FINISH")
           (Scenario.agent_says "links") (Scenario.agent_says "comments")
           (Scenario.agent_says "topics") (Scenario.agent_says "positive")
           "" "" "" Scenario.saver "s1" "And the topics?"
           eq_refl eq_refl eq_refl).
Defined.

(** X12 on a state that holds one finished turn, every router answering
    [FINISH] at once. *)
Lemma team_finishing_at_once_echoes_witness :
  research_team_node 25 Scenario.limit_text (Scenario.llm_always "FINISH")
    (Scenario.agent_says "links") (Scenario.agent_says "comments") ""
    Scenario.earlier_turn
  = Ok {| u_messages := Some [HumanMessage "Mostly positive." None];
          u_documents := None; u_team_members := None; u_next := None |}
  ∧ ∃ u,
      get_messages_and_documents 25 Scenario.limit_text
        (Scenario.llm_always "FINISH") (Scenario.agent_says "topics")
        (Scenario.agent_says "positive") "" Scenario.earlier_turn
      = Ok u
      ∧ u_messages u = Some [HumanMessage "Mostly positive." None]
      ∧ documents (apply_update Scenario.earlier_turn u)
        = Some [Scenario.comment].
Proof.
  destruct (team_finishing_at_once_echoes 25 Scenario.limit_text
              (Scenario.llm_always "FINISH") (Scenario.llm_always "FINISH")
              (Scenario.llm_always "FINISH")
              (Scenario.agent_says "links") (Scenario.agent_says "comments")
              (Scenario.agent_says "topics")
              (Scenario.agent_says "positive") "" "" ""
              Scenario.earlier_turn Scenario.answer)
    as [Hresearch Hanalysis]; [lia|reflexivity|].
  split.
  - eapply Hresearch; [reflexivity|].
    eexists _, _. split; [reflexivity|]. split; reflexivity.
  - eapply Hanalysis; [reflexivity|].
    eexists _, _. split; [reflexivity|]. split; reflexivity.
Defined.

(** X13 on [CommentFinder] with a state that holds one document and a
    retrieval that handed back another. *)
Lemma agent_node_with_docs_keeps_documents_witness :
  ∃ u,
    agent_node_with_docs
      (M := list string)
      {| messages := [Scenario.question]; documents := Some [Scenario.comment];
         team_members := None; next := None |}
      (Scenario.agent_retrieves "found"
         [mkDocument "nice" [("type", "comment")]])
      "CommentFinder"
    = Ok u
    ∧ u_messages u = Some [HumanMessage "found" (Some "CommentFinder")]
    ∧ documents
        (apply_update
           {| messages := [Scenario.question];
              documents := Some [Scenario.comment];
              team_members := None; next := None |} u)
      = Some [mkDocument "nice" [("type", "comment")]].
Proof.
  destruct (agent_node_with_docs_keeps_documents (list string)
              {| messages := [Scenario.question];
                 documents := Some [Scenario.comment];
                 team_members := None; next := None |}
              (Scenario.agent_retrieves "found"
                 [mkDocument "nice" [("type", "comment")]])
              "CommentFinder" _ eq_refl)
    as (u & Hrun & Hmsg & _ & _ & Hdocs).
  exists u. split; [exact Hrun|]. split; [exact Hmsg|].
  apply (Hdocs eq_refl [] "retrieve_information" (Some "found")
           [mkDocument "nice" [("type", "comment")]] [] eq_refl).
  constructor.
Defined.

(** X14 on a short link with a query string. *)
Lemma extracted_id_is_well_formed_witness :
  ("dQw4w9WgXcQ" = "https://youtu.be/dQw4w9WgXcQ?t=42"
   ∧ ∃ id, valid_id id
           ∧ ("https://youtu.be/dQw4w9WgXcQ?t=42" = id
              ∨ "https://youtu.be/dQw4w9WgXcQ?t=42" = id +:+ newline))
  ∨ (valid_id "dQw4w9WgXcQ"
     ∧ ∃ lit pre post,
         lit ∈ patterns
         ∧ "https://youtu.be/dQw4w9WgXcQ?t=42"
           = pre +:+ lit +:+ "dQw4w9WgXcQ" +:+ post).
Proof.
  exact (extracted_id_is_well_formed "https://youtu.be/dQw4w9WgXcQ?t=42"
           "dQw4w9WgXcQ" eq_refl).
Defined.

(** X15 on the identifier [dQw4w9WgXcQ]. *)
Lemma documented_urls_round_trip_witness :
  extract_video_id "dQw4w9WgXcQ" = Some "dQw4w9WgXcQ"
  ∧ extract_video_id "https://www.youtube.com/watch?v=dQw4w9WgXcQ&t=42"
    = Some "dQw4w9WgXcQ"
  ∧ extract_video_id "https://youtu.be/dQw4w9WgXcQ?t=42"
    = Some "dQw4w9WgXcQ"
  ∧ extract_video_id "https://www.youtube.com/embed/dQw4w9WgXcQ"
    = Some "dQw4w9WgXcQ"
  ∧ extract_video_id "https://www.youtube.com/v/dQw4w9WgXcQ"
    = Some "dQw4w9WgXcQ".
Proof.
  destruct (documented_urls_round_trip "dQw4w9WgXcQ" (conj eq_refl eq_refl))
    as (Hbare & Hwatch & Hpath).
  split; [exact Hbare|]. split; [exact (Hwatch "&t=42")|].
  split; [exact (proj1 (Hpath "?t=42" eq_refl))|].
  split; [exact (proj1 (proj2 (Hpath "" eq_refl)))|].
  exact (proj2 (proj2 (Hpath "" eq_refl))).
Defined.

(** X16 on an identifier one character short. *)
Lemma strings_without_slash_need_a_bare_id_witness :
  extract_video_id "dQw4w9WgXc" = None.
Proof.
  apply strings_without_slash_need_a_bare_id; [reflexivity|].
  intros (id & [Hlen _] & [Heq|Heq]).
  - rewrite <- Heq in Hlen. discriminate Hlen.
  - repeat (destruct id as [|? id]; simpl in Hlen, Heq; try discriminate).
Defined.

(** X18 on a follow-up one hour after the session's last access: the
    turn of the stored graph runs on the memory it holds, and the thread
    ends up with the question twice more. *)
Lemma follow_up_runs_on_session_memory_witness :
  (Routes.follow_up (Requests.at_time (Scenario.hours 1)) "s1"
     "And the topics?" Requests.store).1
  = [Routes.progress "Continuing conversation in session: s1...";
     Routes.progress "Using cached data for: A video";
     Routes.progress "Starting analysis...";
     Routes.event
       (final_response "And the topics?"
          (Some [("great video", [("type", "comment")])]) "s1")]
  ∧ ∃ s', SessionManager._sessions
            (Routes.follow_up (Requests.at_time (Scenario.hours 1)) "s1"
               "And the topics?" Requests.store).2 !! "s1" = Some s'
          ∧ SessionManager.last_accessed s' = Scenario.hours 1
          ∧ SessionManager.main_graph s'
            = Some (Routes.mkCompiledGraph Scenario.quiet_turn
                      (Scenario.quiet_turn Scenario.saver "s1"
                         "And the topics?").2).
Proof.
  destruct (follow_up_runs_on_session_memory
              (Requests.at_time (Scenario.hours 1)) "s1" "And the topics?"
              Requests.store Requests.session Requests.graph)
    as (Hlines & (s' & Hs' & Htime & Hgraph & _) & _).
  - reflexivity.
  - unfold SessionManager.lapsed. vm_compute. discriminate.
  - reflexivity.
  - split.
    + rewrite Hlines. vm_compute. reflexivity.
    + exists s'. split; [exact Hs'|]. split; [exact Htime|exact Hgraph].
Defined.

(** X19 on a request whose agents cannot be built: the session [s2] is
    announced and stored without a graph, and a follow-up on it an hour
    later gets the not-found error. *)
Lemma failed_setup_leaves_session_without_graph_witness :
  (Routes.new_session Requests.fetch Requests.prepare Requests.retrieval
     Requests.agents_fail (Requests.at_time 0)
     "https://youtu.be/dQw4w9WgXcQ" 50 "What do people think?"
     Requests.store).1
  = [Routes.progress "Analyzing video: dQw4w9WgXcQ";
     Routes.progress "Fetching video data, comments, and transcript...";
     Routes.progress "Video: A video by A channel";
     Routes.session_created "s2" "dQw4w9WgXcQ" "A video" "A channel";
     Routes.progress "Preparing documents for retrieval...";
     Routes.progress "Prepared 2 documents (1 comments)";
     Routes.progress "Building retrieval system...";
     Routes.progress "Initializing multi-agent system with memory...";
     Routes.event
       (error_message
          "Error during analysis: The api_key client option must be set")]
  ∧ (Routes.follow_up (Requests.at_time (Scenario.hours 1)) "s2"
       "And the topics?"
       (Routes.new_session Requests.fetch Requests.prepare
          Requests.retrieval Requests.agents_fail (Requests.at_time 0)
          "https://youtu.be/dQw4w9WgXcQ" 50 "What do people think?"
          Requests.store).2).1
    = [Routes.progress "Continuing conversation in session: s2...";
       Routes.not_found].
Proof.
  destruct (failed_setup_leaves_session_without_graph
              Requests.fetch Requests.prepare Requests.retrieval
              Requests.agents_fail (Requests.at_time 0)
              "https://youtu.be/dQw4w9WgXcQ" 50 "What do people think?"
              Requests.store)
    as (_ & _ & Hlater).
  destruct (Hlater "dQw4w9WgXcQ" Requests.video Requests.blobs
              (CapabilityError "The api_key client option must be set")
              eq_refl eq_refl)
    as (_ & _ & Hagain).
  - right. eexists _, _, _. split; [reflexivity|].
    right. eexists _, _. split; reflexivity.
  - split; [vm_compute; reflexivity|].
    refine (proj1 (Hagain (Requests.at_time (Scenario.hours 1))
                     "And the topics?" _)).
    vm_compute. discriminate.
Defined.

(** X20 on a request whose setup succeeds, with a follow-up an hour
    later: the follow-up runs on the memory the first turn left. *)
Lemma new_session_then_follow_up_witness :
  SessionManager._sessions
    (Routes.new_session Requests.fetch Requests.prepare Requests.retrieval
       Requests.agents (Requests.at_time 0)
       "https://youtu.be/dQw4w9WgXcQ" 50 "What do people think?"
       Requests.store).2 !! "s2"
  = Some (SessionManager.mkVideoSession "s2" "dQw4w9WgXcQ" "A video"
            "A channel" 0 0
            (Some (Routes.mkCompiledGraph Scenario.quiet_turn
                     (Scenario.quiet_turn ∅ "s2"
                        "What do people think?").2))
            [Requests.video; Scenario.comment] (Some ()) Requests.blobs)
  ∧ ∃ head,
      (Routes.follow_up (Requests.at_time (Scenario.hours 1)) "s2"
         "And the topics?"
         (Routes.new_session Requests.fetch Requests.prepare
            Requests.retrieval Requests.agents (Requests.at_time 0)
            "https://youtu.be/dQw4w9WgXcQ" 50 "What do people think?"
            Requests.store).2).1
      = head
        ++ map Routes.event
             (Scenario.quiet_turn
                (Scenario.quiet_turn ∅ "s2" "What do people think?").2
                "s2" "And the topics?").1.
Proof.
  destruct (new_session_then_follow_up
              Requests.fetch Requests.prepare Requests.retrieval
              Requests.agents (Requests.at_time 0)
              "https://youtu.be/dQw4w9WgXcQ" 50 "What do people think?"
              Requests.store "dQw4w9WgXcQ" Requests.video Requests.blobs
              Requests.video
              [Scenario.comment] [Requests.video; Scenario.comment] () ()
              Scenario.quiet_turn eq_refl eq_refl eq_refl eq_refl eq_refl)
    as (_ & Hstored & Hnext).
  split; [exact Hstored|].
  apply (Hnext (Requests.at_time (Scenario.hours 1)) "And the topics?").
  vm_compute. discriminate.
Defined.

(** X10 on a follow-up whose outer router writes nothing: the stale
    [FINISH] of the earlier turn ends the streaming run at once, the loop
    over the stream raises on the update streamed as [None], and the turn
    consists of that report; the thread holds the question once. *)
Lemma turn_ends_with_one_closing_event_witness :
  (Scenario.silent_turn Scenario.saver "s1" "And the topics?").1
  = [error_message
       "Error during analysis: argument of type 'NoneType' is not iterable"]
  ∧ (Scenario.silent_turn Scenario.saver "s1" "And the topics?").2 !! "s1"
    = Some {| messages := [Scenario.question; Scenario.answer;
                           HumanMessage "And the topics?" None];
              documents := Some [Scenario.comment];
              team_members := None; next := Some "FINISH" |}.
Proof.
  destruct (turn_ends_with_one_closing_event 25 Scenario.limit_text
              (Scenario.llm_always "FINISH") (Scenario.llm_always "FINISH")
              Scenario.llm_silent
              (Scenario.agent_says "links") (Scenario.agent_says "comments")
              (Scenario.agent_says "topics") (Scenario.agent_says "positive")
              "" "" "" Scenario.saver "s1" "And the topics?")
    as (closing & Hturn & _ & _ & _ & Hclosing).
  split; [|vm_compute; reflexivity].
  change (analyze_video_stream 25 Scenario.limit_text
            (Scenario.llm_always "FINISH") (Scenario.llm_always "FINISH")
            Scenario.llm_silent
            (Scenario.agent_says "links") (Scenario.agent_says "comments")
            (Scenario.agent_says "topics") (Scenario.agent_says "positive")
            "" "" "")
    with Scenario.silent_turn in Hturn.
  rewrite Hturn. vm_compute in Hclosing. rewrite Hclosing.
  vm_compute. reflexivity.
Defined.
